(** * Workflow binding of the launch blueprint

    A shallow embedding of
    [packages/blueprints/launch-blueprint/src/blueprint.ts]: the method
    [mapParametersToAction] and the two nested loops of [synth] that apply it
    to the actions of a parsed workflow document.

    Modelling decisions.
    - The workflow document is taken at the type the source casts it to
      ([WorkflowDefinition], [InputVariable], [WorkflowEnvironment]): names and
      identifiers are strings, the values of [Configuration] are strings.
      Fields that the method never reads are left out of the records.
    - The blueprint options are taken at their declared type [Options]:
      [parameters] and [environments] are arrays; [launchOptions] may be
      [undefined], since every use in the source is guarded by [?.].
    - The value of a launch option or of a legacy parameter is dynamically
      typed; [JsValue] has the primitives and the two kinds of object this
      code meets.  A number is an integer (a double holding an integer below
      2^53, printed by JavaScript in plain decimal).
    - A JavaScript object used as a record of child actions is an association
      list in insertion order; the document is a tree (no node is shared).
    - Mutation in place becomes a function that returns the updated value. *)

From Stdlib Require Import ZArith Lia.
From stdpp Require Import base option list strings pretty gmap.

#[local] Set Warnings "-register-all".

(** ** JavaScript values *)

Module Role.
(** [Role<...>]: only [name] is read; it may be missing. *)
Record t : Type := mk { name : option string }.
End Role.

Module AccountConnection.
(** [AccountConnection<{ launchRole }>] *)
Record t : Type := mk {
  name : option string;
  launchRole : option Role.t
}.
End AccountConnection.

Module EnvironmentDefinition.
(** [EnvironmentDefinition<{ awsAccountConnection }>] *)
Record t : Type := mk {
  name : string;
  awsAccountConnection : option AccountConnection.t
}.
End EnvironmentDefinition.

(** A dynamically typed value.  [JEnvironment] is the object a launch option
    of display type [environment] holds; [JKVInput k v] is the object
    [{ key: k, value: v }] of the legacy parameter list. *)
Inductive JsValue : Type :=
| JUndefined
| JNull
| JBoolean (b : bool)
| JNumber (n : Z)
| JString (s : string)
| JEnvironment (e : EnvironmentDefinition.t)
| JKVInput (key : string) (value : JsValue).

(** ToBoolean: the condition of an [if]. *)
Definition truthy (v : JsValue) : bool :=
  match v with
  | JUndefined | JNull => false
  | JBoolean b => b
  | JNumber n => negb (Z.eqb n 0)
  | JString s => negb (String.eqb s EmptyString)
  | JEnvironment _ | JKVInput _ _ => true
  end.

(** The left operand of [??] is given up only when it is [null] or
    [undefined]. *)
Definition nullish (v : JsValue) : bool :=
  match v with
  | JUndefined | JNull => true
  | _ => false
  end.

Definition coalesce (v w : JsValue) : JsValue :=
  if nullish v then w else v.

(** ToString, as applied by a template literal; on the values that are not
    nullish it is also the result of the method call [.toString()].  A number
    is printed in plain decimal, which is what JavaScript prints for a safe
    integer (below 2^53 in absolute value); for greater numbers JavaScript
    rounds the digits or uses an exponent, and the properties that depend on
    the digits of a number are stated for safe integers. *)
Definition toString (v : JsValue) : string :=
  match v with
  | JUndefined => "undefined"
  | JNull => "null"
  | JBoolean true => "true"
  | JBoolean false => "false"
  | JNumber n => pretty n
  | JString s => s
  | JEnvironment _ | JKVInput _ _ => "[object Object]"
  end.

(** A string in a condition: truthy when it is not empty. *)
Definition nonEmpty (s : string) : bool := negb (String.eqb s EmptyString).

(** ** Blueprint options *)

Module LaunchOption.
(** An entry of [OptionsSchemaDefinition<'launch-options', ...>]. *)
Record t : Type := mk {
  key : string;
  displayType : option string;
  value : JsValue
}.
End LaunchOption.

Module DynamicKVInput.
(** An entry of the deprecated [parameters] list. *)
Record t : Type := mk {
  key : string;
  value : JsValue
}.

(** The entry as a value, when the object itself is used. *)
Definition object (p : t) : JsValue := JKVInput (key p) (value p).
End DynamicKVInput.

Record Options : Type := mkOptions {
  environments : list EnvironmentDefinition.t;
  parameters : list DynamicKVInput.t;
  launchOptions : option (list LaunchOption.t)
}.

Definition OPTIONS_PREFIX : string := "LAUNCH_OPTIONS_".

(** ** Workflow document *)

Module InputVariable.
Record t : Type := mk {
  Name : string;
  Value : JsValue
}.
End InputVariable.

Module ConnectionDefinition.
Record t : Type := mk {
  Name : string;
  Role : string
}.
End ConnectionDefinition.

Module WorkflowEnvironment.
Record t : Type := mk {
  Name : option string;
  Connections : option (list ConnectionDefinition.t)
}.
End WorkflowEnvironment.

Module ActionInputs.
(** [action.Inputs]; only [Variables] is read. *)
Record t : Type := mk {
  Variables : option (list InputVariable.t)
}.
End ActionInputs.

(** An action of a workflow; [Actions] holds the child actions of an action
    group. *)
Inductive ActionNode : Type := mkAction {
  Identifier : option string;
  Inputs : option ActionInputs.t;
  Environment : option WorkflowEnvironment.t;
  Configuration : option (gmap string string);
  Actions : option (list (string * ActionNode))
}.

Record WorkflowDefinition : Type := mkWorkflow {
  wfActions : option (list (string * ActionNode))
}.

(** ** Strings *)

(** [s.split(sep)] for a one-character separator: the pieces between the
    separators, in order; never the empty array. *)
Fixpoint split (sep : Ascii.ascii) (s : string) : list string :=
  match s with
  | EmptyString => [EmptyString]
  | String c rest =>
      if Ascii.eqb c sep then EmptyString :: split sep rest
      else match split sep rest with
           | piece :: pieces => String c piece :: pieces
           | [] => [String c EmptyString]
           end
  end.

(** [s.startsWith(p)] *)
Definition startsWith (s p : string) : bool := String.prefix p s.

Definition comma : Ascii.ascii := Eval cbv in Ascii.ascii_of_nat 44.
Definition equals : Ascii.ascii := Eval cbv in Ascii.ascii_of_nat 61.

(** ** Looking up options *)

(** [this.state.options.launchOptions?.find(f)] *)
Definition findLaunchOption (o : Options) (f : LaunchOption.t → bool)
  : option LaunchOption.t :=
  launchOptions o ≫= List.find f.

(** [x?.value] for the result of a search among the launch options. *)
Definition valueOf (x : option LaunchOption.t) : JsValue :=
  from_option LaunchOption.value JUndefined x.

(** [`${OPTIONS_PREFIX}${parameter.key}` == name] *)
Definition namespaced (name : string) (p : DynamicKVInput.t) : bool :=
  String.eqb (OPTIONS_PREFIX +:+ DynamicKVInput.key p) name.

Definition hasKey (name : string) (opt : LaunchOption.t) : bool :=
  String.eqb (LaunchOption.key opt) name.

(** The value bound to a variable name (lines 188-190):
    [launchOptions?.find(option => option.key == optionName)?.value ??
     parameters.find(parameter => ... == optionName)?.value]. *)
Definition specifiedValue (o : Options) (optionName : string) : JsValue :=
  coalesce
    (valueOf (findLaunchOption o (hasKey optionName)))
    (from_option DynamicKVInput.value JUndefined
       (List.find (namespaced optionName) (parameters o))).

(** The value that overrides a deploy parameter (lines 229-231); the second
    operand is the parameter entry found, not its value. *)
Definition override (o : Options) (key : string) : JsValue :=
  coalesce
    (valueOf (findLaunchOption o (hasKey key)))
    (from_option DynamicKVInput.object JUndefined
       (List.find (namespaced key) (parameters o))).

(** ** Variables (lines 185-194) *)

Definition mapVariable (o : Options) (variable : InputVariable.t)
  : InputVariable.t :=
  let optionName := InputVariable.Name variable in
  let specified := specifiedValue o optionName in
  if truthy specified
  then InputVariable.mk optionName (JString (toString specified))
  else variable.

Definition mapInputs (o : Options) (inputs : ActionInputs.t) : ActionInputs.t :=
  ActionInputs.mk (map (mapVariable o) <$> ActionInputs.Variables inputs).

(** ** Environments (lines 197-216) *)

(** [v?.name] on the value of a launch option. *)
Definition nameOf (v : JsValue) : option string :=
  match v with
  | JEnvironment e => Some (EnvironmentDefinition.name e)
  | _ => None
  end.

(** [option.displayType == 'environment' && option.value?.name == Name] *)
Definition isEnvironmentNamed (Name : string) (opt : LaunchOption.t) : bool :=
  bool_decide (LaunchOption.displayType opt = Some "environment")
  && bool_decide (nameOf (LaunchOption.value opt) = Some Name).

(** [launchOptions?.find(...)?.value ?? environments?.find(env => env.name == Name)] *)
Definition launchEnvironment (o : Options) (Name : string) : JsValue :=
  coalesce
    (valueOf (findLaunchOption o (isEnvironmentNamed Name)))
    (from_option JEnvironment JUndefined
       (List.find (λ env, String.eqb (EnvironmentDefinition.name env) Name)
          (environments o))).

(** [v?.awsAccountConnection] *)
Definition awsAccountConnectionOf (v : JsValue) : option AccountConnection.t :=
  match v with
  | JEnvironment e => EnvironmentDefinition.awsAccountConnection e
  | _ => None
  end.

Definition NO_ROLE : string := "No role selected".

(** [connection.launchRole?.name ?? 'No role selected'] *)
Definition roleOf (connection : AccountConnection.t) : string :=
  default NO_ROLE (AccountConnection.launchRole connection ≫= Role.name).

(** The connection written to an action whose environment has the given name,
    if any: the guard of line 207 and the object of lines 210-213. *)
Definition connectionFor (o : Options) (Name : string)
  : option ConnectionDefinition.t :=
  connection ← awsAccountConnectionOf (launchEnvironment o Name);
  name ← AccountConnection.name connection;
  if nonEmpty name
  then Some (ConnectionDefinition.mk name (roleOf connection))
  else None.

Definition mapEnvironment (o : Options) (actionEnvironment : WorkflowEnvironment.t)
  : WorkflowEnvironment.t :=
  match WorkflowEnvironment.Name actionEnvironment with
  | Some Name =>
      if nonEmpty Name then
        match connectionFor o Name with
        | Some connection =>
            WorkflowEnvironment.mk (Some Name) (Some [connection])
        | None => actionEnvironment
        end
      else actionEnvironment
  | None => actionEnvironment
  end.

(** ** Parameter overrides (lines 219-240) *)

Module KeyValue.
(** [{ key: tuple[0], value: tuple[1] }]: the second piece is [undefined]
    when the tuple has no separator. *)
Record t : Type := mk {
  key : string;
  value : option string
}.
End KeyValue.

(** [p.split('=')] has a first piece ([split] never gives the empty
    array), so the default of the key is never taken. *)
Definition parseTuple (p : string) : KeyValue.t :=
  let tuple := split equals p in
  KeyValue.mk (default EmptyString (tuple !! 0%nat)) (tuple !! 1%nat).

(** [overrides.split(',').map(p => ...)] *)
Definition parseOverrides (overrides : string) : list KeyValue.t :=
  map parseTuple (split comma overrides).

(** [`${parameter.key}=${override ?? parameter.value}`], the text written for
    one tuple. *)
Definition assignment (o : Options) (parameter : KeyValue.t) : string :=
  let key := KeyValue.key parameter in
  key +:+ "=" +:+
  toString (coalesce (override o key)
              (from_option JString JUndefined (KeyValue.value parameter))).

(** [`${parameter.key}=${override ?? parameter.value},`] *)
Definition emitParameter (o : Options) (parameter : KeyValue.t) : string :=
  assignment o parameter +:+ ",".

(** The loop of lines 227-233. *)
Definition buildOverrides (o : Options) (parameters : list KeyValue.t) : string :=
  fold_left (λ newOverrides parameter, newOverrides +:+ emitParameter o parameter)
    parameters EmptyString.

Definition PARAMETER_OVERRIDES : string := "parameter-overrides".

Definition rewriteOverrides (o : Options) (configuration : gmap string string)
  : gmap string string :=
  match configuration !! PARAMETER_OVERRIDES with
  | Some overrides =>
      if nonEmpty overrides then
        let newOverrides := buildOverrides o (parseOverrides overrides) in
        if nonEmpty newOverrides then
          <[PARAMETER_OVERRIDES :=
              String.substring 0 (String.length newOverrides - 1) newOverrides]>
            configuration
        else configuration
      else configuration
  | None => configuration
  end.

Definition DEPLOY_PREFIX : string := "aws/cfn-deploy@".

(** [action.Identifier?.startsWith('aws/cfn-deploy@')] *)
Definition isDeploy (action : ActionNode) : bool :=
  from_option (λ identifier, startsWith identifier DEPLOY_PREFIX) false
    (Identifier action).

(** ** The method and the walk *)

Definition mapParametersToAction (o : Options) (action : ActionNode) : ActionNode :=
  {| Identifier := Identifier action;
     Inputs := mapInputs o <$> Inputs action;
     Environment := mapEnvironment o <$> Environment action;
     Configuration :=
       if isDeploy action
       then rewriteOverrides o <$> Configuration action
       else Configuration action;
     Actions := Actions action |}.

Definition mapEntry (f : ActionNode → ActionNode) (entry : string * ActionNode)
  : string * ActionNode :=
  (entry.1, f entry.2).

(** The inner loop of [synth] (lines 168-171): every value of
    [action.Actions] is handed to the method, which updates it in place; the
    other fields of [action] are not touched. *)
Definition mapChildActions (o : Options) (action : ActionNode) : ActionNode :=
  {| Identifier := Identifier action;
     Inputs := Inputs action;
     Environment := Environment action;
     Configuration := Configuration action;
     Actions := map (mapEntry (mapParametersToAction o)) <$> Actions action |}.

(** The body of the outer loop (lines 166-171). *)
Definition walkAction (o : Options) (action : ActionNode) : ActionNode :=
  mapChildActions o (mapParametersToAction o action).

(** The outer loop of [synth] (lines 165-172) on a parsed workflow: every
    value of [workflow.Actions], in the order of its keys, goes through the
    body of the loop.  The actions do not read one another, so the order
    leaves no trace in the result. *)
Definition walkWorkflow (o : Options) (workflow : WorkflowDefinition)
  : WorkflowDefinition :=
  {| wfActions := map (mapEntry (walkAction o)) <$> wfActions workflow |}.

(** ** Nodes of a document, by the names on the way to them *)

(** [actions?.[name]] *)
Definition lookupAction (name : string) (actions : option (list (string * ActionNode)))
  : option ActionNode :=
  entry ← actions ≫= List.find (λ entry, String.eqb entry.1 name);
  Some entry.2.

Fixpoint nodeAt (path : list string) (action : ActionNode) : option ActionNode :=
  match path with
  | [] => Some action
  | name :: rest => lookupAction name (Actions action) ≫= nodeAt rest
  end.

(** The node a non-empty path of names leads to; its depth is the length of
    the path. *)
Definition workflowNodeAt (path : list string) (workflow : WorkflowDefinition)
  : option ActionNode :=
  match path with
  | [] => None
  | name :: rest => lookupAction name (wfActions workflow) ≫= nodeAt rest
  end.

(** [variables ?? []] *)
Definition variablesOf (action : ActionNode) : list InputVariable.t :=
  default [] (Inputs action ≫= ActionInputs.Variables).

Definition connectionsOf (action : ActionNode) : option (list ConnectionDefinition.t) :=
  Environment action ≫= WorkflowEnvironment.Connections.

(** [action.Environment?.Name] when it is truthy. *)
Definition environmentNameOf (action : ActionNode) : option string :=
  Name ← Environment action ≫= WorkflowEnvironment.Name;
  if nonEmpty Name then Some Name else None.

(** ** Vocabulary of the properties *)

(** Number of occurrences of a character in a string. *)
Fixpoint countChar (c : Ascii.ascii) (s : string) : nat :=
  match s with
  | EmptyString => 0
  | String c' rest => (if Ascii.eqb c' c then 1 else 0) + countChar c rest
  end.

(** [launchOptions ?? []] *)
Definition launchOptionsOf (o : Options) : list LaunchOption.t :=
  default [] (launchOptions o).

(** No launch option has the key [name], and no legacy parameter has it as
    its namespaced key. *)
Definition unbound (o : Options) (name : string) : Prop :=
  Forall (λ opt, LaunchOption.key opt ≠ name) (launchOptionsOf o) ∧
  Forall (λ p, OPTIONS_PREFIX +:+ DynamicKVInput.key p ≠ name) (parameters o).

(** No environment definition, of either source, has the name [Name]. *)
Definition noEnvironment (o : Options) (Name : string) : Prop :=
  Forall (λ opt, LaunchOption.displayType opt = Some "environment" →
                 nameOf (LaunchOption.value opt) ≠ Some Name)
    (launchOptionsOf o) ∧
  Forall (λ env, EnvironmentDefinition.name env ≠ Name) (environments o).

(** The name of the account connection of a definition, when the definition
    has a connection and the connection a non-empty name. *)
Definition namedConnection (e : EnvironmentDefinition.t) : option string :=
  connection ← EnvironmentDefinition.awsAccountConnection e;
  name ← AccountConnection.name connection;
  if nonEmpty name then Some name else None.

(** Two nodes agree on every field but the child actions. *)
Definition sameFields (a b : ActionNode) : Prop :=
  Identifier a = Identifier b ∧ Inputs a = Inputs b ∧
  Environment a = Environment b ∧ Configuration a = Configuration b.

(** What the walk makes of the node that a path leads to: the body of the
    outer loop at depth one, the method at depth two, nothing below. *)
Definition walked (o : Options) (path : list string) (action : ActionNode)
  : ActionNode :=
  match path with
  | [_] => walkAction o action
  | [_; _] => mapParametersToAction o action
  | _ => action
  end.

(** ** Sample options and documents *)

Definition noOptions : Options := mkOptions [] [] None.

(** One launch option, [stage = "prod"]. *)
Definition stageProd : Options :=
  mkOptions [] [] (Some [LaunchOption.mk "stage" None (JString "prod")]).


Definition legacyStage : DynamicKVInput.t :=
  DynamicKVInput.mk "stage" (JString "legacy").



(** Only the legacy parameter. *)
Definition legacyOnly : Options := mkOptions [] [legacyStage] None.

(** A launch option that is present with the empty string as its value. *)
Definition emptyStage : Options :=
  mkOptions [] [] (Some [LaunchOption.mk "stage" None (JString EmptyString)]).

(** An environment with a named connection and no role, given in the legacy
    list. *)
Definition betaEnvironment : EnvironmentDefinition.t :=
  EnvironmentDefinition.mk "beta"
    (Some (AccountConnection.mk (Some "account-1") None)).

Definition betaOptions : Options := mkOptions [betaEnvironment] [] None.

(** Options that bind other names: a launch option [region], the legacy
    parameter of [LAUNCH_OPTIONS_stage] and an environment [gamma]. *)
Definition otherOptions : Options :=
  mkOptions
    [EnvironmentDefinition.mk "gamma"
       (Some (AccountConnection.mk (Some "account-2") None))]
    [legacyStage]
    (Some [LaunchOption.mk "region" None (JString "us-west-2")]).

Definition stageVariable : InputVariable.t :=
  InputVariable.mk "stage" (JString "dev").

(** A build action with one variable, an environment with a connection of
    its own, and an override string that a deploy action would rewrite. *)
Definition buildAction : ActionNode :=
  {| Identifier := Some "aws/build@v1";
     Inputs := Some (ActionInputs.mk (Some [stageVariable]));
     Environment :=
       Some (WorkflowEnvironment.mk (Some "beta")
               (Some [ConnectionDefinition.mk "old-account" "old-role"]));
     Configuration := Some {[ PARAMETER_OVERRIDES := "stage=dev" ]};
     Actions := None |}.

Definition deployAction (overrides : string) : ActionNode :=
  {| Identifier := Some "aws/cfn-deploy@v1";
     Inputs := None;
     Environment := None;
     Configuration := Some {[ PARAMETER_OVERRIDES := overrides ]};
     Actions := None |}.

Definition groupOf (name : string) (child : ActionNode) : ActionNode :=
  {| Identifier := None;
     Inputs := None;
     Environment := None;
     Configuration := None;
     Actions := Some [(name, child)] |}.

(** [Release] holds [Group], which holds [Build]: a node three levels deep. *)
Definition nestedWorkflow : WorkflowDefinition :=
  mkWorkflow (Some [("Release", groupOf "Group" (groupOf "Build" buildAction))]).

Definition flatWorkflow : WorkflowDefinition :=
  mkWorkflow (Some [("Build", buildAction)]).

(** One top-level action with a variable of its own and two children, each
    with a variable of another name. *)
Definition variableAction (name : string) : ActionNode :=
  {| Identifier := Some "aws/build@v1";
     Inputs := Some (ActionInputs.mk (Some [InputVariable.mk name (JString "unset")]));
     Environment := None;
     Configuration := None;
     Actions := None |}.

Definition familyWorkflow : WorkflowDefinition :=
  mkWorkflow
    (Some [("Parent",
            {| Identifier := None;
               Inputs := Some (ActionInputs.mk
                                 (Some [InputVariable.mk "top" (JString "unset")]));
               Environment := None;
               Configuration := None;
               Actions := Some [("First", variableAction "left");
                                ("Second", variableAction "LAUNCH_OPTIONS_right")] |})]).

Definition familyOptions : Options :=
  mkOptions [] [DynamicKVInput.mk "right" (JBoolean true)]
    (Some [LaunchOption.mk "top" None (JNumber 3);
           LaunchOption.mk "left" None (JString "west")]).

(** The environment [beta] given twice: as a launch option with a connection
    and a role, and in the legacy list with another connection. *)
Definition betaTwice : Options :=
  mkOptions [betaEnvironment] []
    (Some [LaunchOption.mk "deployTo" (Some "environment")
             (JEnvironment
                (EnvironmentDefinition.mk "beta"
                   (Some (AccountConnection.mk (Some "account-9")
                            (Some (Role.mk (Some "launch-role")))))))]).

(** * Further definitions *)

(** The names under which child actions are held, in their order. *)
Definition namesOf (actions : option (list (string * ActionNode)))
  : option (list string) :=
  map fst <$> actions.

(** What a node may differ in from the node it was: the values of its
    variables, the connections of its environment and the value under
    [parameter-overrides].  The identifier is the same; [Inputs], its
    [Variables], [Environment] and [Configuration] are present or absent as
    before; the variables are as many, with the same names in the same
    order; the environment has the same name; the configuration has the same
    keys, and the same value under every key but [parameter-overrides]. *)
Definition onlyValuesChange (action' action : ActionNode) : Prop :=
  Identifier action' = Identifier action ∧
  option_Forall2
    (λ inputs' inputs,
       option_Forall2
         (Forall2 (λ variable' variable,
                     InputVariable.Name variable' = InputVariable.Name variable))
         (ActionInputs.Variables inputs') (ActionInputs.Variables inputs))
    (Inputs action') (Inputs action) ∧
  option_Forall2
    (λ environment' environment,
       WorkflowEnvironment.Name environment' = WorkflowEnvironment.Name environment)
    (Environment action') (Environment action) ∧
  option_Forall2
    (λ configuration' configuration : gmap string string,
       dom configuration' = dom configuration ∧
       ∀ key, key ≠ PARAMETER_OVERRIDES →
              configuration' !! key = configuration !! key)
    (Configuration action') (Configuration action).

(** A number that JavaScript prints in plain decimal, digit for digit: a safe
    integer.  Every other value is printed as [toString] has it. *)
Definition safeNumber (v : JsValue) : Prop :=
  match v with
  | JNumber n => (Z.abs n < 2 ^ 53)%Z
  | _ => True
  end.

(** A deploy action with a variable, an environment and two keys in its
    configuration; and options that bind all three. *)
Definition fullAction : ActionNode :=
  {| Identifier := Some "aws/cfn-deploy@v1";
     Inputs := Some (ActionInputs.mk (Some [stageVariable]));
     Environment :=
       Some (WorkflowEnvironment.mk (Some "beta")
               (Some [ConnectionDefinition.mk "old-account" "old-role"]));
     Configuration :=
       Some (<[ "template" := "stage=dev" ]>
               {[ PARAMETER_OVERRIDES := "stage=dev,region=us-west-2" ]});
     Actions := None |}.

Definition fullWorkflow : WorkflowDefinition :=
  mkWorkflow (Some [("Deploy", fullAction)]).

Definition fullOptions : Options :=
  mkOptions [betaEnvironment] []
    (Some [LaunchOption.mk "stage" None (JString "prod")]).

(** The same action under a launch option [stage] that holds the empty
    string. *)
Definition emptyStageAction : ActionNode :=
  {| Identifier := Some "aws/cfn-deploy@v1";
     Inputs := Some (ActionInputs.mk (Some [stageVariable]));
     Environment := None;
     Configuration := Some {[ PARAMETER_OVERRIDES := "stage=dev,region=us-west-2" ]};
     Actions := None |}.

(** A deploy action whose configuration has, beside the overrides, a key
    whose value looks like an override string. *)
Definition stackAction : ActionNode :=
  {| Identifier := Some "aws/cfn-deploy@v1";
     Inputs := None;
     Environment := None;
     Configuration :=
       Some (<[ "template" := "stage=dev" ]>
               {[ PARAMETER_OVERRIDES := "stage=dev" ]});
     Actions := None |}.

Definition stackWorkflow : WorkflowDefinition :=
  mkWorkflow (Some [("Deploy", stackAction)]).

(** The values of the launch options print without a comma. *)
Definition commaFree (o : Options) : Prop :=
  Forall (λ opt, countChar comma (toString (LaunchOption.value opt)) = 0)
    (launchOptionsOf o).

(** A launch option whose value holds a comma. *)
Definition zonesOption : Options :=
  mkOptions [] [] (Some [LaunchOption.mk "zones" None (JString "a,b")]).

(** The environment [beta] as a launch option without a connection, and in
    the legacy list with one. *)
Definition betaShadowed : Options :=
  mkOptions [betaEnvironment] []
    (Some [LaunchOption.mk "deployTo" (Some "environment")
             (JEnvironment (EnvironmentDefinition.mk "beta" None))]).

(** ** The constructor (lines 103-112) *)


(** ** The substitutions of the template (lines 158-161) *)

(** [substitutions[key] = value] on the own properties of an object made by
    [{}]: the name [__proto__] is the accessor of the prototype, and an
    assignment to it makes no property. *)
Definition setProperty (substitutions : gmap string JsValue)
    (key : string) (value : JsValue) : gmap string JsValue :=
  if String.eqb key "__proto__" then substitutions
  else <[key := value]> substitutions.

(** The own properties of [substitutions] after the [forEach].  A read of a
    name that is not an own property goes to the prototype, which is not
    modelled here: what is said of a read is said of the names that are own
    properties. *)
Definition substitutions (o : Options) : gmap string JsValue :=
  foldl (λ substitutions option,
           setProperty substitutions (LaunchOption.key option)
             (LaunchOption.value option))
    ∅ (launchOptionsOf o).

(** ** The workflow files (line 155) *)

Definition LF : Ascii.ascii := Eval cbv in Ascii.ascii_of_nat 10.
Definition CR : Ascii.ascii := Eval cbv in Ascii.ascii_of_nat 13.

(** A string is a sequence of bytes, a name in UTF-8.  The line terminators
    that [.] does not match are LF, CR and the two separators U+2028 and
    U+2029, which are the bytes E2 80 A8 and E2 80 A9. *)
Definition lineTerminatorAt (s : string) : bool :=
  match s with
  | String c rest =>
      Ascii.eqb c LF || Ascii.eqb c CR ||
      (Nat.eqb (Ascii.nat_of_ascii c) 226 &&
       match rest with
       | String c1 (String c2 _) =>
           Nat.eqb (Ascii.nat_of_ascii c1) 128 &&
           (Nat.eqb (Ascii.nat_of_ascii c2) 168 ||
            Nat.eqb (Ascii.nat_of_ascii c2) 169)
       | _ => false
       end)
  | EmptyString => false
  end.

(** The letters A to Z in lower case; the flag [i] makes no other character
    equal to a character of the pattern. *)
Definition toLowerAscii (c : Ascii.ascii) : Ascii.ascii :=
  let n := Ascii.nat_of_ascii c in
  if Nat.leb 65 n && Nat.leb n 90 then Ascii.ascii_of_nat (n + 32) else c.

Fixpoint toLower (s : string) : string :=
  match s with
  | EmptyString => EmptyString
  | String c rest => String (toLowerAscii c) (toLower rest)
  end.

(** The second group and the end of the name, with the flag [i], on what is
    left of the name. *)
Definition isExtension (s : string) : bool :=
  String.eqb (toLower s) ".yaml" || String.eqb (toLower s) ".yml".

(** [name.match(re)] is not [null], for the expression [re] of line 155: a
    first group of any characters that are not line terminators, then the
    group [\.yaml|\.yml], then the end of the name; the flag [i]. *)
Fixpoint isWorkflowFile (name : string) : bool :=
  isExtension name ||
  match name with
  | String _ rest => negb (lineTerminatorAt name) && isWorkflowFile rest
  | EmptyString => false
  end.

Fixpoint hasLineTerminator (s : string) : bool :=
  match s with
  | String _ rest => lineTerminatorAt s || hasLineTerminator rest
  | EmptyString => false
  end.

(** Two launch options with the key [stage]. *)
Definition stageTwice : Options :=
  mkOptions [] []
    (Some [LaunchOption.mk "stage" None (JString "first");
           LaunchOption.mk "region" None (JString "us-west-2");
           LaunchOption.mk "stage" None (JString "last")]).

(** The first byte of a line terminator. *)
Definition startsLineTerminator (c : Ascii.ascii) : bool :=
  Ascii.eqb c LF || Ascii.eqb c CR || Nat.eqb (Ascii.nat_of_ascii c) 226.

(** ** The command that runs a synthesis (second part of the source) *)

(** What the function does to its surroundings, in the order in which it
    does it. *)
Inductive Event : Type :=
| LogError (message argument : string)
| LogDebug (message : string) (argument : option string)
| ConsoleLog (text : string)
| Exec (command cwd : string)
| CreateCache (buildDirectory builtEntryPoint : string)
| WriteSynthDriver (driverFile entry : string).

(** How a run ends: the function returns, the process exits, or an exception
    leaves the function. *)
Inductive Outcome : Type :=
| Returned
| Exited (code : Z)
| Thrown.

(** The surroundings: a state of the world [W] (the file system, the clock)
    and the functions of the platform and of the modules [./cache] and
    [./driver], none of which is in the source.  [J] is the type of parsed
    JSON.  A [bool] or an [option] beside a new state tells whether the call
    returned ([false], [None]: it threw). *)
Record Runtime (W J : Type) : Type := mkRuntime {
  existsSync : string → W → bool;
  execSync : string → string → W → W * bool;
  (* [{ ...JSON.parse(fs.readFileSync(path, 'utf-8')) }] *)
  loadOptions : string → W → option J;
  emptyObject : J;
  stringify : J → string;
  now : W → Z;
  join : list string → string;
  resolve : string → string;
  createCache : string → string → W → W * option string;
  writeSynthDriver : string → string → W → W * bool
}.
Arguments existsSync {W J}.
Arguments execSync {W J}.
Arguments loadOptions {W J}.
Arguments emptyObject {W J}.
Arguments stringify {W J}.
Arguments now {W J}.
Arguments join {W J}.
Arguments resolve {W J}.
Arguments createCache {W J}.
Arguments writeSynthDriver {W J}.

(** A step of the function: from a state of the world and the events so far
    to a new state, the events so far, and a value or the end of the run. *)
Definition Step (W A : Type) : Type :=
  W * list Event → (W * list Event) * (A + Outcome).

#[global] Instance Step_ret {W} : MRet (Step W) := λ A a s, (s, inl a).

#[global] Instance Step_bind {W} : MBind (Step W) :=
  λ A B k m s,
    match m s with
    | (s', inl a) => k a s'
    | (s', inr outcome) => (s', inr outcome)
    end.

Definition emit {W} (e : Event) : Step W unit :=
  λ s, ((s.1, s.2 ++ [e]), inl tt).

Definition stop {W A} (outcome : Outcome) : Step W A := λ s, (s, inr outcome).

(** A read of the world. *)
Definition ask {W A} (f : W → A) : Step W A := λ s, (s, inl (f s.1)).

(** A call that changes the world and returns a value, or throws. *)
Definition call {W A} (e : Event) (f : W → W * option A) : Step W A :=
  λ s, let (w, result) := f s.1 in
       ((w, s.2 ++ [e]), match result with
                         | Some a => inl a
                         | None => inr Thrown
                         end).

Definition succeeded (r : bool) : option unit := if r then Some tt else None.

(** [try { body } catch (e) { throw e } finally { final }]: [final] runs when
    [body] returns and when it throws; what [final] throws is what leaves the
    statement.  An exit of the process inside [body] ends the run. *)
Definition tryFinally {W} (body final : Step W unit) : Step W unit :=
  λ s, match body s with
       | (s', inr (Exited code)) => (s', inr (Exited code))
       | (s', result) =>
           match final s' with
           | (s'', inl _) => (s'', result)
           | (s'', inr outcome) => (s'', inr outcome)
           end
       end.

(** [process.exit(255)] *)
Definition exit255 {W A} : Step W A := stop (Exited 255).

(** [cp.execSync(command, { stdio: 'inherit', cwd })] *)
Definition exec {W J} (rt : Runtime W J) (command cwd : string) : Step W unit :=
  call (Exec command cwd)
    (λ w, let (w', ok) := execSync rt command cwd w in (w', succeeded ok)).

(** [if (!fs.existsSync(path)) { log.error(message, path); process.exit(255); }] *)
Definition requireFile {W J} (rt : Runtime W J) (message path : string)
  : Step W unit :=
  ask (existsSync rt path) ≫= λ found : bool,
  if found then mret tt else emit (LogError message path);; exit255.

(** The block of lines 270-279: the options, when a path is given. *)
Definition readOptions {W J} (rt : Runtime W J) (options : option string)
  : Step W J :=
  match options with
  | Some path =>
      if nonEmpty path then
        requireFile rt "options file did not exist: %s" path;;
        ask (loadOptions rt path) ≫= λ loaded : option J,
        match loaded with
        | Some loadedOptions => mret loadedOptions
        | None => stop Thrown
        end
      else mret (emptyObject rt)
  | None => mret (emptyObject rt)
  end.

(** The branch of lines 281-306: synthesis from the built blueprint. *)
Definition synthCached {W J} (rt : Runtime W J)
    (blueprint synthDirectory : string) (loadedOptions : J) : Step W unit :=
  let buildDirectory := join rt [blueprint; "lib"] in
  let builtEntryPoint := "./index.js" in
  emit (LogDebug "Creating cache from built: %s" (Some buildDirectory));;
  emit (LogDebug "Creating cache from built blueprint: %s" (Some builtEntryPoint));;
  ask (λ w,
    negb (existsSync rt buildDirectory w)
    && negb (existsSync rt (join rt [buildDirectory; builtEntryPoint]) w))
  ≫= λ missing : bool,
  (if missing then
     emit (LogDebug "Did you forget to build?" None);;
     emit (LogError "Blueprint entrypoint not found: %s" builtEntryPoint);;
     exit255
   else mret tt);;
  synthExecutionFile ← call (CreateCache buildDirectory builtEntryPoint)
                         (createCache rt buildDirectory builtEntryPoint);
  let command :=
    "npx node " +:+ synthExecutionFile +:+ " '" +:+ stringify rt loadedOptions
    +:+ "' '" +:+ synthDirectory +:+ "'" in
  emit (LogDebug "generated command: %s" (Some command));;
  exec rt command blueprint.

(** The branch of lines 307-328: synthesis through a driver file, which is
    removed at the end. *)
Definition synthDriven {W J} (rt : Runtime W J)
    (blueprint synthDirectory : string) (loadedOptions : J) : Step W unit :=
  let driverFile := join rt [blueprint; "synth-driver.ts"] in
  emit (ConsoleLog driverFile);;
  tryFinally
    (let entry := join rt [blueprint; "src"; "index.ts"] in
     call (WriteSynthDriver driverFile entry)
       (λ w, let (w', ok) := writeSynthDriver rt driverFile entry w in
             (w', succeeded ok));;
     let command :=
       "npx ts-node " +:+ driverFile +:+ " '" +:+ stringify rt loadedOptions
       +:+ "' '" +:+ synthDirectory +:+ "'" in
     emit (LogDebug "generated command: %s" (Some command));;
     exec rt command blueprint)
    (emit (LogDebug "cleaning up synth driver: %s" (Some driverFile));;
     exec rt ("rm " +:+ driverFile) blueprint).

(** [path.resolve(path.join(outdir, 'synth', String(Math.floor(Date.now() / 100))))] *)
Definition synthDirectoryAt {W J} (rt : Runtime W J) (outdir : string) (time : Z)
  : string :=
  resolve rt (join rt [outdir; "synth"; pretty (time `div` 100)%Z]).

(** [synth(log, blueprint, outdir, useCache, options)] of the second part of
    the source (lines 258-329). *)
Definition synth {W J} (rt : Runtime W J)
    (blueprint outdir : string) (useCache : bool) (options : option string)
  : Step W unit :=
  requireFile rt "blueprint directory does not exist: %s" blueprint;;
  time ← ask (now rt);
  let synthDirectory := synthDirectoryAt rt outdir time in
  exec rt ("mkdir -p " +:+ synthDirectory) outdir;;
  loadedOptions ← readOptions rt options;
  if useCache
  then synthCached rt blueprint synthDirectory loadedOptions
  else synthDriven rt blueprint synthDirectory loadedOptions.

(** A run from a state of the world, with no event yet. *)
Definition run {W A} (m : Step W A) (w : W) : (W * list Event) * (A + Outcome) :=
  m (w, []).

Definition executed (events : list Event) : list (string * string) :=
  omap (λ e, match e with Exec command cwd => Some (command, cwd) | _ => None end)
    events.

(** A small world for examples: the paths that exist and the time.  Every
    command succeeds but the ones listed as failing; the driver file exists
    once it is written. *)
Record World : Type := mkWorld {
  paths : list string;
  clock : Z
}.

Definition sampleRuntime (failing : list string) : Runtime World string :=
  {| existsSync path w := bool_decide (path ∈ paths w);
     execSync command cwd w := (w, bool_decide (command ∉ failing));
     loadOptions path w := Some "{}";
     emptyObject := "{}";
     stringify json := json;
     now := clock;
     join parts := String.concat "/" parts;
     resolve path := path;
     createCache buildDirectory builtEntryPoint w := (w, Some "cache.js");
     writeSynthDriver driverFile entry w :=
       (mkWorld (driverFile :: paths w) (clock w), true) |}.

Definition sampleWorld : World := mkWorld ["bp"] 1234.

(** A runtime in which the command of the synthesis through the driver
    fails. *)
Definition failingRuntime : Runtime World string :=
  sampleRuntime ["npx ts-node bp/synth-driver.ts '{}' 'out/synth/12'"].

(** The events of a run through the driver. *)
Definition drivenEvents : list Event :=
  [Exec "mkdir -p out/synth/12" "out"; ConsoleLog "bp/synth-driver.ts";
   WriteSynthDriver "bp/synth-driver.ts" "bp/src/index.ts";
   LogDebug "generated command: %s"
     (Some "npx ts-node bp/synth-driver.ts '{}' 'out/synth/12'");
   Exec "npx ts-node bp/synth-driver.ts '{}' 'out/synth/12'" "bp";
   LogDebug "cleaning up synth driver: %s" (Some "bp/synth-driver.ts");
   Exec "rm bp/synth-driver.ts" "bp"].

(** The events of a run with the cache when [lib] is missing. *)
Definition unbuiltEvents : list Event :=
  [Exec "mkdir -p out/synth/12" "out";
   LogDebug "Creating cache from built: %s" (Some "bp/lib");
   LogDebug "Creating cache from built blueprint: %s" (Some "./index.js");
   LogDebug "Did you forget to build?" None;
   LogError "Blueprint entrypoint not found: %s" "./index.js"].


(** * Properties *)

(** ** Strings *)

Lemma split_length sep s : length (split sep s) = S (countChar sep s).
Proof.
  induction s as [|c rest IH]; simpl; [done|].
  destruct (Ascii.eqb c sep); simpl; [by rewrite IH|].
  destruct (split sep rest); simpl in *; congruence.
Qed.

Lemma split_cons sep s : ∃ piece pieces, split sep s = piece :: pieces.
Proof.
  pose proof (split_length sep s) as Hlen.
  destruct (split sep s) as [|piece pieces]; [done|eauto].
Qed.

(** Joining the pieces with the separator gives the string back. *)
Lemma concat_split sep s :
  String.concat (String sep EmptyString) (split sep s) = s.
Proof.
  induction s as [|c rest IH]; simpl; [done|].
  destruct (split_cons sep rest) as (piece & pieces & Hsplit).
  rewrite Hsplit in IH |- *.
  destruct (Ascii.eqb_spec c sep) as [->|_].
  - rewrite <- IH at 1. reflexivity.
  - rewrite <- IH. by destruct pieces.
Qed.

Lemma append_cons c (s t : string) : String c s +:+ t = String c (s +:+ t).
Proof. reflexivity. Qed.

Lemma append_assoc (s t u : string) : (s +:+ t) +:+ u = s +:+ t +:+ u.
Proof.
  induction s as [|c s IH]; [done|]. by rewrite !append_cons, IH.
Qed.

Lemma append_empty_r (s : string) : s +:+ EmptyString = s.
Proof.
  induction s as [|c s IH]; [done|]. by rewrite append_cons, IH.
Qed.

Lemma length_append (s t : string) :
  String.length (s +:+ t) = String.length s + String.length t.
Proof.
  induction s as [|c s IH]; [done|]. rewrite append_cons. simpl. by rewrite IH.
Qed.

Lemma substring_append (s t : string) :
  String.substring 0 (String.length s) (s +:+ t) = s.
Proof.
  induction s as [|c s IH].
  - by destruct t.
  - rewrite append_cons. simpl. by rewrite IH.
Qed.

(** Dropping the last character of a string that ends in a comma. *)
Lemma substring_drop_comma (s : string) :
  String.substring 0 (String.length (s +:+ ",") - 1) (s +:+ ",") = s.
Proof.
  rewrite length_append. simpl.
  replace (String.length s + 1 - 1) with (String.length s) by lia.
  apply substring_append.
Qed.

Lemma nonEmpty_append_comma (s : string) : nonEmpty (s +:+ ",") = true.
Proof. by destruct s. Qed.

(** ** Searching the options *)

Lemma find_None_Forall {A} (f : A → bool) (l : list A) :
  Forall (λ x, f x = false) l → List.find f l = None.
Proof.
  induction 1 as [|x l Hx _ IH]; simpl; [done|]. by rewrite Hx.
Qed.

Lemma hasKey_true name opt :
  hasKey name opt = true ↔ LaunchOption.key opt = name.
Proof. apply String.eqb_eq. Qed.

Lemma namespaced_true name p :
  namespaced name p = true ↔ OPTIONS_PREFIX +:+ DynamicKVInput.key p = name.
Proof. apply String.eqb_eq. Qed.

Lemma findLaunchOption_launchOptionsOf o f :
  findLaunchOption o f = List.find f (launchOptionsOf o).
Proof. unfold findLaunchOption, launchOptionsOf. by destruct (launchOptions o). Qed.

Lemma no_key_findLaunchOption o name :
  Forall (λ opt, LaunchOption.key opt ≠ name) (launchOptionsOf o) →
  findLaunchOption o (hasKey name) = None.
Proof.
  intros Hall. rewrite findLaunchOption_launchOptionsOf.
  apply find_None_Forall. eapply Forall_impl; [exact Hall|].
  intros opt Hopt. apply not_true_is_false. by rewrite hasKey_true.
Qed.

Lemma unbound_parameter o name :
  unbound o name → List.find (namespaced name) (parameters o) = None.
Proof.
  intros [_ Hall]. apply find_None_Forall. eapply Forall_impl; [exact Hall|].
  intros p Hp. apply not_true_is_false. by rewrite namespaced_true.
Qed.

Lemma unbound_specifiedValue o name :
  unbound o name → specifiedValue o name = JUndefined.
Proof.
  intros Hunbound. unfold specifiedValue.
  rewrite no_key_findLaunchOption by apply Hunbound.
  by rewrite unbound_parameter.
Qed.

Lemma unbound_override o name :
  unbound o name → override o name = JUndefined.
Proof.
  intros Hunbound. unfold override.
  rewrite no_key_findLaunchOption by apply Hunbound.
  by rewrite unbound_parameter.
Qed.

(** With keys that are pairwise distinct, the search finds the one entry of
    a key. *)
Lemma findLaunchOption_unique o name opt :
  NoDup (map LaunchOption.key (launchOptionsOf o)) →
  opt ∈ launchOptionsOf o → LaunchOption.key opt = name →
  findLaunchOption o (hasKey name) = Some opt.
Proof.
  rewrite findLaunchOption_launchOptionsOf.
  induction (launchOptionsOf o) as [|opt' opts IH]; intros Hdup Hin Hkey.
  - by apply elem_of_nil in Hin.
  - simpl in *. apply NoDup_cons in Hdup as [Hfresh Hdup].
    apply elem_of_cons in Hin as [<-|Hin].
    + by rewrite (proj2 (hasKey_true name opt) Hkey).
    + destruct (hasKey name opt') eqn:Hopt'; [|by apply IH].
      apply hasKey_true in Hopt'. destruct Hfresh.
      rewrite Hopt', <- Hkey. by apply list_elem_of_fmap_2.
Qed.

(** ** The rebuilt override string *)

Lemma fold_left_append {A} (f : A → string) (l : list A) (init : string) :
  fold_left (λ acc x, acc +:+ f x) l init
  = init +:+ String.concat EmptyString (map f l).
Proof.
  revert init. induction l as [|x l IH]; intros init; simpl.
  - by rewrite append_empty_r.
  - rewrite IH, append_assoc. f_equal.
    destruct l; simpl; [by rewrite append_empty_r|done].
Qed.

Lemma concat_trailing_comma {A} (g : A → string) (l : list A) :
  l ≠ [] →
  String.concat EmptyString (map (λ x, g x +:+ ",") l)
  = String.concat "," (map g l) +:+ ",".
Proof.
  induction l as [|x l IH]; [done|intros _].
  destruct l as [|y l]; [done|].
  change (String.concat EmptyString (map (λ x, g x +:+ ",") (x :: y :: l)))
    with ((g x +:+ ",") +:+ EmptyString +:+
          String.concat EmptyString (map (λ x, g x +:+ ",") (y :: l))).
  change (String.concat "," (map g (x :: y :: l)))
    with (g x +:+ "," +:+ String.concat "," (map g (y :: l))).
  rewrite IH by done. by rewrite !append_assoc.
Qed.

Lemma buildOverrides_concat o (parameters : list KeyValue.t) :
  parameters ≠ [] →
  buildOverrides o parameters
  = String.concat "," (map (assignment o) parameters) +:+ ",".
Proof.
  intros Hne. unfold buildOverrides.
  rewrite (fold_left_append (emitParameter o)).
  change (EmptyString +:+ ?s) with s. by apply (concat_trailing_comma (assignment o)).
Qed.

Lemma parseOverrides_cons overrides : parseOverrides overrides ≠ [].
Proof.
  unfold parseOverrides.
  by destruct (split_cons comma overrides) as (piece & pieces & ->).
Qed.

(** What [rewriteOverrides] writes: the assignments of the tuples, joined by
    commas. *)
Lemma rewriteOverrides_nonEmpty o (configuration : gmap string string) overrides :
  configuration !! PARAMETER_OVERRIDES = Some overrides →
  nonEmpty overrides = true →
  rewriteOverrides o configuration
  = <[PARAMETER_OVERRIDES :=
        String.concat "," (map (assignment o) (parseOverrides overrides))]>
      configuration.
Proof.
  intros Hlookup Hne. unfold rewriteOverrides. rewrite Hlookup, Hne.
  rewrite buildOverrides_concat by apply parseOverrides_cons.
  by rewrite nonEmpty_append_comma, substring_drop_comma.
Qed.

(** ** One action *)

Lemma variablesOf_mapParametersToAction o action :
  variablesOf (mapParametersToAction o action)
  = map (mapVariable o) (variablesOf action).
Proof.
  unfold variablesOf. simpl.
  destruct (Inputs action) as [[[variables|]]|]; reflexivity.
Qed.

Lemma mapVariable_falsy o variable :
  truthy (specifiedValue o (InputVariable.Name variable)) = false →
  mapVariable o variable = variable.
Proof. intros Hfalsy. unfold mapVariable. by rewrite Hfalsy. Qed.

Lemma truthy_false_iff v :
  truthy v = false ↔
  v ∈ [JUndefined; JNull; JBoolean false; JNumber 0; JString EmptyString].
Proof.
  split.
  - destruct v as [| |[]|n|s| |]; simpl; try done; intros Hv.
    + set_solver.
    + set_solver.
    + set_solver.
    + apply negb_false_iff, Z.eqb_eq in Hv as ->. set_solver.
    + apply negb_false_iff, String.eqb_eq in Hv as ->. set_solver.
  - intros Hv. repeat (apply elem_of_cons in Hv as [->|Hv]; [done|]).
    by apply elem_of_nil in Hv.
Qed.

Lemma mapEnvironment_unbound o action Name :
  environmentNameOf action = Some Name →
  connectionFor o Name = None →
  Environment (mapParametersToAction o action) = Environment action.
Proof.
  unfold environmentNameOf. simpl.
  destruct (Environment action) as [[[Name'|] connections]|]; simpl; try done.
  unfold mapEnvironment. simpl.
  destruct (nonEmpty Name') eqn:HName; [|done].
  intros [= ->] Hnone. by rewrite Hnone.
Qed.

Lemma mapEnvironment_bound o action Name connection :
  environmentNameOf action = Some Name →
  connectionFor o Name = Some connection →
  Environment (mapParametersToAction o action)
  = Some (WorkflowEnvironment.mk (Some Name) (Some [connection])).
Proof.
  unfold environmentNameOf. simpl.
  destruct (Environment action) as [[[Name'|] connections]|]; simpl; try done.
  unfold mapEnvironment. simpl.
  destruct (nonEmpty Name') eqn:HName; [|done].
  intros [= ->] Hsome. by rewrite Hsome.
Qed.

(** The value found for an environment name is a definition of that name, or
    nothing. *)
Lemma noEnvironment_launchEnvironment o Name :
  noEnvironment o Name → launchEnvironment o Name = JUndefined.
Proof.
  intros [Hlaunch Hlegacy]. unfold launchEnvironment.
  rewrite findLaunchOption_launchOptionsOf.
  rewrite (find_None_Forall (isEnvironmentNamed Name)).
  - rewrite find_None_Forall; [done|].
    eapply Forall_impl; [exact Hlegacy|].
    intros env Henv. by apply String.eqb_neq.
  - eapply Forall_impl; [exact Hlaunch|].
    intros opt Hopt. unfold isEnvironmentNamed.
    apply andb_false_iff.
    destruct (decide (LaunchOption.displayType opt = Some "environment")) as [Hd|Hd].
    + right. apply bool_decide_eq_false. by apply Hopt.
    + left. by apply bool_decide_eq_false.
Qed.

Lemma connectionFor_definition o Name e :
  launchEnvironment o Name = JEnvironment e →
  connectionFor o Name
  = (connection ← EnvironmentDefinition.awsAccountConnection e;
     name ← namedConnection e;
     Some (ConnectionDefinition.mk name (roleOf connection))).
Proof.
  intros Henv. unfold connectionFor, namedConnection. rewrite Henv. simpl.
  destruct (EnvironmentDefinition.awsAccountConnection e) as [[[name|] role]|];
    simpl; try done.
  by destruct (nonEmpty name).
Qed.

Lemma connectionFor_absent o Name :
  noEnvironment o Name ∨
  (∃ e, launchEnvironment o Name = JEnvironment e ∧ namedConnection e = None) →
  connectionFor o Name = None.
Proof.
  intros [Hnone|(e & Henv & Hunnamed)].
  - unfold connectionFor. by rewrite noEnvironment_launchEnvironment.
  - rewrite (connectionFor_definition _ _ _ Henv), Hunnamed.
    by destruct (EnvironmentDefinition.awsAccountConnection e).
Qed.

Lemma isDeploy_false action :
  (∀ identifier, Identifier action = Some identifier →
                 startsWith identifier DEPLOY_PREFIX = false) →
  isDeploy action = false.
Proof.
  unfold isDeploy. destruct (Identifier action) as [identifier|]; simpl; auto.
Qed.

(** ** The walk *)

Lemma lookupAction_map f name actions :
  lookupAction name (map (mapEntry f) <$> actions)
  = f <$> lookupAction name actions.
Proof.
  destruct actions as [actions|]; [|done]. unfold lookupAction. simpl.
  induction actions as [|[name' action] actions IH]; simpl; [done|].
  by destruct (String.eqb name' name).
Qed.

Lemma sameFields_walkAction o action :
  sameFields (walkAction o action) (mapParametersToAction o action).
Proof. by repeat split. Qed.

(** The node at a path after the walk is the node at that path before it,
    as [walked] rewrites it. *)
Lemma workflowNodeAt_walkWorkflow o workflow path :
  workflowNodeAt path (walkWorkflow o workflow)
  = walked o path <$> workflowNodeAt path workflow.
Proof.
  destruct path as [|top path]; [done|]. simpl.
  rewrite lookupAction_map.
  destruct (lookupAction top (wfActions workflow)) as [action|]; [|done].
  simpl. destruct path as [|child path]; [done|]. simpl.
  rewrite lookupAction_map.
  destruct (lookupAction child (Actions action)) as [action'|]; [|done].
  simpl. destruct path as [|name path]; [done|]. simpl.
  by destruct (lookupAction name (Actions action') ≫= nodeAt path).
Qed.

Lemma walked_shallow o path action :
  0 < length path ≤ 2 →
  sameFields (walked o path action) (mapParametersToAction o action).
Proof.
  destruct path as [|top [|child [|name path]]]; simpl; try lia; intros _.
  - apply sameFields_walkAction.
  - by repeat split.
Qed.

Lemma walked_deep o path action :
  2 < length path → walked o path action = action.
Proof.
  destruct path as [|top [|child [|name path]]]; simpl; try lia; done.
Qed.

Lemma workflowNodeAt_nonempty path workflow action :
  workflowNodeAt path workflow = Some action → 0 < length path.
Proof. destruct path; simpl; [done|lia]. Qed.

(** Every field but the child actions of a node after the walk is that of
    the node before it, or of the method applied to it. *)
Lemma walked_fields o path action :
  walked o path action = action ∨
  sameFields (walked o path action) (mapParametersToAction o action).
Proof.
  destruct path as [|top [|child [|name path]]]; simpl; auto.
  - right. apply sameFields_walkAction.
  - right. by repeat split.
Qed.

(** ** Precedence of the launch options *)




(** ** The legacy parameter as an override *)

(** C4: for a key that no launch option has and that is the namespaced key of
    a legacy parameter, the override is the parameter entry itself, which a
    template prints as [[object Object]], while the value bound to a variable
    of that name is the entry's [value]. *)
Theorem legacy_override_is_object o key p :
  Forall (λ opt, LaunchOption.key opt ≠ key) (launchOptionsOf o) →
  List.find (namespaced key) (parameters o) = Some p →
  override o key = DynamicKVInput.object p ∧
  specifiedValue o key = DynamicKVInput.value p ∧
  ∀ original, assignment o (KeyValue.mk key original) = key +:+ "=[object Object]".
Proof.
  intros Hlaunch Hfind.
  assert (override o key = DynamicKVInput.object p) as Hoverride.
  { unfold override. by rewrite (no_key_findLaunchOption _ _ Hlaunch), Hfind. }
  split; [done|split].
  - unfold specifiedValue. by rewrite (no_key_findLaunchOption _ _ Hlaunch), Hfind.
  - intros original. unfold assignment. simpl. by rewrite Hoverride.
Qed.

Lemma legacy_override_is_object_witness :
  override legacyOnly "LAUNCH_OPTIONS_stage"
    = JKVInput "stage" (JString "legacy") ∧
  specifiedValue legacyOnly "LAUNCH_OPTIONS_stage" = JString "legacy" ∧
  ∀ original,
    assignment legacyOnly (KeyValue.mk "LAUNCH_OPTIONS_stage" original)
    = "LAUNCH_OPTIONS_stage=[object Object]".
Proof.
  apply (legacy_override_is_object legacyOnly "LAUNCH_OPTIONS_stage" legacyStage).
  - apply Forall_nil_2.
  - reflexivity.
Defined.

(** ** The depth of the walk *)

(** C2, as stated, fails: the action [Build] three levels deep has a variable
    that the method would set to [prod], and comes out of the walk as it
    went in. *)
Lemma third_level_not_visited :
  workflowNodeAt ["Release"; "Group"; "Build"] nestedWorkflow = Some buildAction ∧
  workflowNodeAt ["Release"; "Group"; "Build"] (walkWorkflow stageProd nestedWorkflow)
    = Some buildAction ∧
  variablesOf buildAction = [InputVariable.mk "stage" (JString "dev")] ∧
  variablesOf (mapParametersToAction stageProd buildAction)
    = [InputVariable.mk "stage" (JString "prod")].
Proof. repeat split; reflexivity. Qed.

(** C2 (amended): for every node of a workflow document, the walk leaves a
    node at the same path; at depth one or two its fields other than the
    child actions are those the method [mapParametersToAction] gives the
    node, and at any greater depth it is the node unchanged. *)
Theorem walk_visits_two_levels o workflow path action :
  workflowNodeAt path workflow = Some action →
  ∃ action',
    workflowNodeAt path (walkWorkflow o workflow) = Some action' ∧
    (length path ≤ 2 → sameFields action' (mapParametersToAction o action)) ∧
    (2 < length path → action' = action).
Proof.
  intros Hnode. exists (walked o path action). split; [|split].
  - by rewrite workflowNodeAt_walkWorkflow, Hnode.
  - intros Hdepth. apply walked_shallow.
    pose proof (workflowNodeAt_nonempty _ _ _ Hnode). lia.
  - apply walked_deep.
Qed.

Lemma walk_visits_two_levels_witness :
  variablesOf (variableAction "left")
    = [InputVariable.mk "left" (JString "unset")] ∧
  (∃ action',
     workflowNodeAt ["Parent"; "First"] (walkWorkflow familyOptions familyWorkflow)
       = Some action' ∧
     sameFields action'
       (mapParametersToAction familyOptions (variableAction "left")) ∧
     variablesOf action' = [InputVariable.mk "left" (JString "west")]) ∧
  variablesOf (mapParametersToAction stageProd buildAction)
    = [InputVariable.mk "stage" (JString "prod")] ∧
  (∃ action',
     workflowNodeAt ["Release"; "Group"; "Build"]
       (walkWorkflow stageProd nestedWorkflow) = Some action' ∧
     action' = buildAction ∧
     variablesOf action' = [InputVariable.mk "stage" (JString "dev")]).
Proof.
  split; [reflexivity|]. split; [|split; [reflexivity|]].
  - destruct (walk_visits_two_levels familyOptions familyWorkflow
                ["Parent"; "First"] (variableAction "left") eq_refl)
      as (action' & Hnode & Hshallow & _).
    exists action'. split; [exact Hnode|].
    assert (sameFields action'
              (mapParametersToAction familyOptions (variableAction "left")))
      as Hsame by (apply Hshallow; simpl; lia).
    split; [exact Hsame|].
    destruct Hsame as (_ & HInputs & _).
    unfold variablesOf. rewrite HInputs. reflexivity.
  - destruct (walk_visits_two_levels stageProd nestedWorkflow
                ["Release"; "Group"; "Build"] buildAction eq_refl)
      as (action' & Hnode & _ & Hdeep).
    exists action'. split; [exact Hnode|].
    assert (action' = buildAction) as -> by (apply Hdeep; simpl; lia).
    split; reflexivity.
Defined.

(** ** What the walk leaves alone *)

(** The node after the walk is [walked o path action]; what is left to show
    is a property of it. *)
Ltac after_walk o path action Hnode :=
  exists (walked o path action);
  split; [by rewrite workflowNodeAt_walkWorkflow, Hnode|].

(** C5: after a walk, a variable whose name no launch option and no
    namespaced legacy parameter binds is as it was; and the [Environment] of
    an action whose environment name has no definition, or has one without a
    named account connection, is as it was. *)
Theorem absent_is_noop o workflow path action :
  workflowNodeAt path workflow = Some action →
  ∃ action',
    workflowNodeAt path (walkWorkflow o workflow) = Some action' ∧
    (∀ i variable,
       variablesOf action !! i = Some variable →
       unbound o (InputVariable.Name variable) →
       variablesOf action' !! i = Some variable) ∧
    (∀ Name,
       environmentNameOf action = Some Name →
       noEnvironment o Name ∨
       (∃ e, launchEnvironment o Name = JEnvironment e ∧
             namedConnection e = None) →
       Environment action' = Environment action).
Proof.
  intros Hnode. after_walk o path action Hnode.
  destruct (walked_fields o path action) as [->|(_ & HInputs & HEnvironment & _)].
  { split; [by intros|done]. }
  split.
  - intros i variable Hi Hunbound.
    unfold variablesOf at 1. rewrite HInputs.
    change (variablesOf (mapParametersToAction o action) !! i = Some variable).
    rewrite variablesOf_mapParametersToAction, list_lookup_fmap, Hi. simpl.
    rewrite mapVariable_falsy; [done|].
    by rewrite unbound_specifiedValue.
  - intros Name HName Habsent. rewrite HEnvironment.
    eapply mapEnvironment_unbound; [done|]. by apply connectionFor_absent.
Qed.

Lemma absent_is_noop_witness :
  ∃ action',
    workflowNodeAt ["Build"] (walkWorkflow otherOptions flatWorkflow) = Some action' ∧
    variablesOf action' !! 0%nat = Some stageVariable ∧
    Environment action' = Environment buildAction.
Proof.
  destruct (absent_is_noop otherOptions flatWorkflow ["Build"] buildAction)
    as (action' & Hnode & Hvariables & HEnvironment); [reflexivity|].
  exists action'. split; [exact Hnode|split].
  - apply Hvariables; [reflexivity|].
    split; repeat constructor; discriminate.
  - apply (HEnvironment "beta"); [reflexivity|]. left.
    split; repeat constructor; discriminate.
Defined.

(** C9: after a walk, a variable for whose name the value found is falsy
    (the empty string, 0, [false], [null] or [undefined]) is as it was, also
    when an option with that name exists. *)
Theorem falsy_value_keeps_variable o workflow path action i variable :
  workflowNodeAt path workflow = Some action →
  variablesOf action !! i = Some variable →
  truthy (specifiedValue o (InputVariable.Name variable)) = false →
  ∃ action',
    workflowNodeAt path (walkWorkflow o workflow) = Some action' ∧
    variablesOf action' !! i = Some variable.
Proof.
  intros Hnode Hi Hfalsy. after_walk o path action Hnode.
  destruct (walked_fields o path action) as [->|(_ & HInputs & _)]; [done|].
  unfold variablesOf at 1. rewrite HInputs.
  change (variablesOf (mapParametersToAction o action) !! i = Some variable).
  rewrite variablesOf_mapParametersToAction, list_lookup_fmap, Hi. simpl.
  by rewrite mapVariable_falsy.
Qed.

Lemma falsy_value_keeps_variable_witness :
  hasKey "stage" <$> launchOptionsOf emptyStage = [true] ∧
  ∃ action',
    workflowNodeAt ["Build"] (walkWorkflow emptyStage flatWorkflow) = Some action' ∧
    variablesOf action' !! 0%nat = Some stageVariable.
Proof.
  split; [reflexivity|].
  apply (falsy_value_keeps_variable emptyStage flatWorkflow ["Build"] buildAction);
    reflexivity.
Defined.

(** C8: after a walk, the [Configuration] of an action whose identifier does
    not start with [aws/cfn-deploy@] is as it was, whatever it holds under
    [parameter-overrides] and whatever the options are. *)
Theorem non_deploy_configuration_untouched o workflow path action :
  workflowNodeAt path workflow = Some action →
  (∀ identifier, Identifier action = Some identifier →
                 startsWith identifier "aws/cfn-deploy@" = false) →
  ∃ action',
    workflowNodeAt path (walkWorkflow o workflow) = Some action' ∧
    Configuration action' = Configuration action.
Proof.
  intros Hnode Hidentifier. after_walk o path action Hnode.
  destruct (walked_fields o path action) as [->|(_ & _ & _ & ->)]; [done|].
  simpl. by rewrite isDeploy_false.
Qed.

Lemma non_deploy_configuration_untouched_witness :
  override stageProd "stage" = JString "prod" ∧
  ∃ action',
    workflowNodeAt ["Build"] (walkWorkflow stageProd flatWorkflow) = Some action' ∧
    Configuration action' = Some {[ PARAMETER_OVERRIDES := "stage=dev" ]}.
Proof.
  split; [reflexivity|].
  apply (non_deploy_configuration_untouched stageProd flatWorkflow ["Build"]
           buildAction).
  - reflexivity.
  - intros identifier [= <-]. reflexivity.
Defined.

(** ** Binding an environment *)

(** C6: when the definition found for the environment name of an action has
    an account connection with a non-empty name and no launch role, the
    connection written to the action has the role [No role selected]. *)
Theorem missing_role_sentinel o action Name e connection name :
  environmentNameOf action = Some Name →
  launchEnvironment o Name = JEnvironment e →
  EnvironmentDefinition.awsAccountConnection e = Some connection →
  AccountConnection.name connection = Some name →
  name ≠ EmptyString →
  AccountConnection.launchRole connection = None →
  connectionFor o Name = Some (ConnectionDefinition.mk name "No role selected") ∧
  connectionsOf (mapParametersToAction o action)
    = Some [ConnectionDefinition.mk name "No role selected"].
Proof.
  intros HName Henv Hconnection Hname Hnonempty Hrole.
  assert (connectionFor o Name
          = Some (ConnectionDefinition.mk name "No role selected")) as Hfor.
  { unfold connectionFor. rewrite Henv. simpl. rewrite Hconnection. simpl.
    rewrite Hname. simpl. unfold nonEmpty, roleOf.
    rewrite (proj2 (String.eqb_neq name EmptyString) Hnonempty), Hrole. reflexivity. }
  split; [done|]. unfold connectionsOf.
  by rewrite (mapEnvironment_bound _ _ _ _ HName Hfor).
Qed.

Lemma missing_role_sentinel_witness :
  connectionFor betaOptions "beta"
    = Some (ConnectionDefinition.mk "account-1" "No role selected") ∧
  connectionsOf (mapParametersToAction betaOptions buildAction)
    = Some [ConnectionDefinition.mk "account-1" "No role selected"].
Proof.
  apply (missing_role_sentinel betaOptions buildAction "beta" betaEnvironment
           (AccountConnection.mk (Some "account-1") None) "account-1");
    try reflexivity.
  discriminate.
Defined.

(** C7: when a connection is found for the environment name of an action,
    the [Connections] of the action's environment are, after the method, the
    list of that one connection, whatever they were before. *)
Theorem binding_replaces_connections o action Name connection :
  environmentNameOf action = Some Name →
  connectionFor o Name = Some connection →
  connectionsOf (mapParametersToAction o action) = Some [connection] ∧
  connectionsOf (walkAction o action) = Some [connection].
Proof.
  intros HName Hfor. unfold connectionsOf. simpl.
  change (mapEnvironment o <$> Environment action)
    with (Environment (mapParametersToAction o action)).
  by rewrite (mapEnvironment_bound _ _ _ _ HName Hfor).
Qed.

Lemma binding_replaces_connections_witness :
  connectionsOf buildAction
    = Some [ConnectionDefinition.mk "old-account" "old-role"] ∧
  connectionsOf (mapParametersToAction betaOptions buildAction)
    = Some [ConnectionDefinition.mk "account-1" "No role selected"] ∧
  connectionsOf (walkAction betaOptions buildAction)
    = Some [ConnectionDefinition.mk "account-1" "No role selected"].
Proof.
  split; [reflexivity|].
  apply (binding_replaces_connections betaOptions buildAction "beta");
    reflexivity.
Defined.

(** ** Rewriting the overrides *)

Lemma mapParametersToAction_deploy o action (configuration : gmap string string)
    overrides :
  isDeploy action = true →
  Configuration action = Some configuration →
  configuration !! PARAMETER_OVERRIDES = Some overrides →
  overrides ≠ EmptyString →
  Configuration (mapParametersToAction o action)
  = Some (<[PARAMETER_OVERRIDES :=
              String.concat "," (map (assignment o) (parseOverrides overrides))]>
            configuration).
Proof.
  intros Hdeploy Hconfiguration Hlookup Hnonempty. simpl.
  rewrite Hdeploy, Hconfiguration. simpl. f_equal.
  apply rewriteOverrides_nonEmpty; [done|].
  unfold nonEmpty. by rewrite (proj2 (String.eqb_neq overrides EmptyString) Hnonempty).
Qed.

Lemma split_no_separator sep token :
  countChar sep token = 0 → split sep token = [token].
Proof.
  induction token as [|c token IH]; simpl; [done|].
  destruct (Ascii.eqb c sep); simpl; [done|].
  intros Hcount. by rewrite IH.
Qed.

Lemma split_one_separator sep token :
  countChar sep token = 1 →
  ∃ key value,
    split sep token = [key; value] ∧
    token = key +:+ String sep EmptyString +:+ value.
Proof.
  intros Hcount.
  pose proof (split_length sep token) as Hlength.
  pose proof (concat_split sep token) as Hconcat.
  rewrite Hcount in Hlength.
  destruct (split sep token) as [|key [|value [|piece pieces]]];
    simplify_eq/=.
  by exists key, value.
Qed.

(** A tuple with one separator and a key that nothing binds is written back
    as it was read. *)
Lemma assignment_unbound o token :
  countChar equals token = 1 →
  unbound o (KeyValue.key (parseTuple token)) →
  assignment o (parseTuple token) = token.
Proof.
  intros Hcount.
  destruct (split_one_separator _ _ Hcount) as (key & value & Hsplit & ->).
  unfold parseTuple, assignment. rewrite Hsplit. simpl.
  intros Hunbound. by rewrite unbound_override.
Qed.

(** A token without a separator and that nothing binds is written back
    followed by [=undefined]. *)
Lemma assignment_no_separator o token :
  countChar equals token = 0 →
  unbound o token →
  assignment o (parseTuple token) = token +:+ "=undefined".
Proof.
  intros Hcount Hunbound. unfold parseTuple, assignment.
  rewrite (split_no_separator _ _ Hcount). simpl.
  by rewrite unbound_override.
Qed.

(** C3, as stated, fails: no key of the string is bound (there are no options
    at all), and the rewrite drops the text after a second [=] and adds
    [=undefined] to a token that has none. *)
Lemma rewrite_not_identity :
  isDeploy (deployAction "stage=a=b,flag") = true ∧
  Forall (λ token, unbound noOptions (KeyValue.key (parseTuple token)))
    (split comma "stage=a=b,flag") ∧
  Configuration (deployAction "stage=a=b,flag")
    = Some {[ PARAMETER_OVERRIDES := "stage=a=b,flag" ]} ∧
  Configuration (mapParametersToAction noOptions (deployAction "stage=a=b,flag"))
    = Some {[ PARAMETER_OVERRIDES := "stage=a,flag=undefined" ]}.
Proof.
  split; [reflexivity|]. split.
  { repeat constructor. }
  split; [reflexivity|].
  rewrite (mapParametersToAction_deploy noOptions _
             {[ PARAMETER_OVERRIDES := "stage=a=b,flag" ]} "stage=a=b,flag");
    [|done..].
  by rewrite insert_singleton_eq.
Qed.

(** C3 (amended): for a deploy action whose override string is made of
    tuples with exactly one [=] each, and whose keys no launch option and no
    namespaced legacy parameter binds, the method leaves the [Configuration]
    as it was. *)
Theorem unbound_overrides_unchanged o action (configuration : gmap string string)
    overrides :
  isDeploy action = true →
  Configuration action = Some configuration →
  configuration !! PARAMETER_OVERRIDES = Some overrides →
  Forall (λ token, countChar equals token = 1 ∧
                   unbound o (KeyValue.key (parseTuple token)))
    (split comma overrides) →
  Configuration (mapParametersToAction o action) = Configuration action.
Proof.
  intros Hdeploy Hconfiguration Hlookup Htokens.
  destruct (decide (overrides = EmptyString)) as [->|Hnonempty].
  { simpl. rewrite Hdeploy, Hconfiguration. simpl.
    unfold rewriteOverrides. by rewrite Hlookup. }
  rewrite (mapParametersToAction_deploy _ _ _ _ Hdeploy Hconfiguration Hlookup
             Hnonempty), Hconfiguration.
  f_equal. apply insert_id. rewrite Hlookup. f_equal.
  unfold parseOverrides. rewrite map_map.
  rewrite (Forall_fmap_ext_1 (λ token, assignment o (parseTuple token)) id).
  - rewrite list_fmap_id. symmetry. apply (concat_split comma).
  - eapply Forall_impl; [exact Htokens|].
    intros token [Hcount Hunbound]. by apply assignment_unbound.
Qed.

Lemma unbound_overrides_unchanged_witness :
  Configuration
    (mapParametersToAction otherOptions (deployAction "stage=dev,zone=us-west-2"))
  = Some {[ PARAMETER_OVERRIDES := "stage=dev,zone=us-west-2" ]}.
Proof.
  apply (unbound_overrides_unchanged otherOptions
           (deployAction "stage=dev,zone=us-west-2")
           {[ PARAMETER_OVERRIDES := "stage=dev,zone=us-west-2" ]}
           "stage=dev,zone=us-west-2").
  - reflexivity.
  - reflexivity.
  - reflexivity.
  - repeat constructor; discriminate.
Defined.

(** C10: for a deploy action with a non-empty override string, the string
    written is the assignments of its tokens joined by commas, and the
    assignment of a token that has no [=] and that no launch option and no
    namespaced legacy parameter binds is the token followed by
    [=undefined]. *)
Theorem malformed_token_gets_undefined o action
    (configuration : gmap string string) overrides i token :
  isDeploy action = true →
  Configuration action = Some configuration →
  configuration !! PARAMETER_OVERRIDES = Some overrides →
  overrides ≠ EmptyString →
  split comma overrides !! i = Some token →
  countChar equals token = 0 →
  unbound o token →
  Configuration (mapParametersToAction o action)
  = Some (<[PARAMETER_OVERRIDES :=
              String.concat "," (map (assignment o) (parseOverrides overrides))]>
            configuration) ∧
  map (assignment o) (parseOverrides overrides) !! i
  = Some (token +:+ "=undefined").
Proof.
  intros Hdeploy Hconfiguration Hlookup Hnonempty Hi Hcount Hunbound.
  split; [by apply mapParametersToAction_deploy|].
  unfold parseOverrides. rewrite map_map.
  change (map ?f ?l) with (f <$> l).
  rewrite list_lookup_fmap, Hi. simpl.
  by rewrite assignment_no_separator.
Qed.

Lemma malformed_token_gets_undefined_witness :
  Configuration
    (mapParametersToAction stageProd (deployAction "stage=dev,verbose"))
  = Some {[ PARAMETER_OVERRIDES := "stage=prod,verbose=undefined" ]} ∧
  map (assignment stageProd) (parseOverrides "stage=dev,verbose") !! 1%nat
  = Some "verbose=undefined".
Proof.
  destruct (malformed_token_gets_undefined stageProd
              (deployAction "stage=dev,verbose")
              {[ PARAMETER_OVERRIDES := "stage=dev,verbose" ]}
              "stage=dev,verbose" 1 "verbose") as [Hwritten Hpiece];
    try reflexivity; try discriminate.
  { split; repeat constructor; discriminate. }
  split; [|exact Hpiece].
  rewrite Hwritten. by rewrite insert_singleton_eq.
Defined.

(** The example of the specification: [stage=dev,region=us-west-2] with the
    launch option [stage = "prod"]. *)
Example rewrite_example :
  rewriteOverrides stageProd {[ PARAMETER_OVERRIDES := "stage=dev,region=us-west-2" ]}
  = {[ PARAMETER_OVERRIDES := "stage=prod,region=us-west-2" ]}.
Proof.
  rewrite (rewriteOverrides_nonEmpty _ _ "stage=dev,region=us-west-2") by done.
  by rewrite insert_singleton_eq.
Qed.

(** ** Further examples of the specification *)

(** With a launch option of display type [environment] and a legacy
    environment of the same name, the connection is the launch option's. *)
Example environment_fallback_order :
  connectionFor betaTwice "beta"
  = Some (ConnectionDefinition.mk "account-9" "launch-role").
Proof. reflexivity. Qed.

(** A parent and its two children each get their variable, from a number, a
    string and a legacy parameter holding [true]. *)
Example nested_traversal :
  variablesOf <$> workflowNodeAt ["Parent"] (walkWorkflow familyOptions familyWorkflow)
    = Some [InputVariable.mk "top" (JString "3")] ∧
  variablesOf <$> workflowNodeAt ["Parent"; "First"]
                    (walkWorkflow familyOptions familyWorkflow)
    = Some [InputVariable.mk "left" (JString "west")] ∧
  variablesOf <$> workflowNodeAt ["Parent"; "Second"]
                    (walkWorkflow familyOptions familyWorkflow)
    = Some [InputVariable.mk "LAUNCH_OPTIONS_right" (JString "true")].
Proof. repeat split; reflexivity. Qed.

(** * Further properties of the method and of the walk *)

(** ** What the walk keeps *)

Lemma mapVariable_Name o variable :
  InputVariable.Name (mapVariable o variable) = InputVariable.Name variable.
Proof. unfold mapVariable. by destruct (truthy _). Qed.

Lemma mapEnvironment_Name o actionEnvironment :
  WorkflowEnvironment.Name (mapEnvironment o actionEnvironment)
  = WorkflowEnvironment.Name actionEnvironment.
Proof.
  unfold mapEnvironment.
  destruct (WorkflowEnvironment.Name actionEnvironment) as [Name|] eqn:HName;
    [|done].
  destruct (nonEmpty Name); [|done].
  by destruct (connectionFor o Name).
Qed.

Lemma walked_Actions_names o path action :
  namesOf (Actions (walked o path action)) = namesOf (Actions action).
Proof.
  destruct path as [|top [|child [|name path]]]; simpl; try done.
  unfold namesOf. simpl.
  destruct (Actions action) as [children|]; simpl; [|done].
  f_equal. rewrite map_map. by apply map_ext.
Qed.

(** X1: The walk neither adds nor removes a node, and keeps the top-level
    actions under their names and in their order. *)
Theorem walk_keeps_paths o workflow :
  namesOf (wfActions (walkWorkflow o workflow)) = namesOf (wfActions workflow) ∧
  ∀ path,
    is_Some (workflowNodeAt path (walkWorkflow o workflow))
    ↔ is_Some (workflowNodeAt path workflow).
Proof.
  split.
  - unfold namesOf. simpl.
    destruct (wfActions workflow) as [actions|]; simpl; [|done].
    f_equal. rewrite map_map. by apply map_ext.
  - intros path. rewrite workflowNodeAt_walkWorkflow. apply fmap_is_Some.
Qed.

(** X3: After a walk, a variable of a node at depth one or two whose name is
    bound to a truthy value holds that value as a string; a number is meant
    to be a safe integer, which is printed in plain decimal. *)
Theorem bound_variable_is_written o workflow path action i variable :
  workflowNodeAt path workflow = Some action →
  length path ≤ 2 →
  variablesOf action !! i = Some variable →
  truthy (specifiedValue o (InputVariable.Name variable)) = true →
  safeNumber (specifiedValue o (InputVariable.Name variable)) →
  ∃ action',
    workflowNodeAt path (walkWorkflow o workflow) = Some action' ∧
    variablesOf action' !! i
    = Some (InputVariable.mk (InputVariable.Name variable)
              (JString (toString (specifiedValue o (InputVariable.Name variable))))).
Proof.
  intros Hnode Hdepth Hi Htruthy _. after_walk o path action Hnode.
  destruct (walked_shallow o path action) as (_ & HInputs & _).
  { pose proof (workflowNodeAt_nonempty _ _ _ Hnode). lia. }
  unfold variablesOf at 1. rewrite HInputs.
  change (variablesOf (mapParametersToAction o action) !! i = Some
            (InputVariable.mk (InputVariable.Name variable)
               (JString (toString (specifiedValue o (InputVariable.Name variable)))))).
  rewrite variablesOf_mapParametersToAction, list_lookup_fmap, Hi. simpl.
  unfold mapVariable. by rewrite Htruthy.
Qed.

Lemma bound_variable_is_written_witness :
  ∃ action',
    workflowNodeAt ["Parent"] (walkWorkflow familyOptions familyWorkflow)
      = Some action' ∧
    variablesOf action' !! 0%nat = Some (InputVariable.mk "top" (JString "3")).
Proof.
  eapply (bound_variable_is_written familyOptions familyWorkflow ["Parent"] _ 0
            (InputVariable.mk "top" (JString "unset"))).
  - reflexivity.
  - simpl. lia.
  - reflexivity.
  - reflexivity.
  - reflexivity.
Defined.

(** ** Doing it twice *)

Lemma mapVariable_idempotent o variable :
  mapVariable o (mapVariable o variable) = mapVariable o variable.
Proof.
  unfold mapVariable.
  destruct (truthy (specifiedValue o (InputVariable.Name variable))) eqn:Htruthy;
    simpl; by rewrite Htruthy.
Qed.

Lemma mapEnvironment_idempotent o actionEnvironment :
  mapEnvironment o (mapEnvironment o actionEnvironment)
  = mapEnvironment o actionEnvironment.
Proof.
  unfold mapEnvironment.
  destruct (WorkflowEnvironment.Name actionEnvironment) as [Name|] eqn:HName;
    [|by rewrite HName].
  destruct (nonEmpty Name) eqn:Hnonempty; [|by rewrite HName, Hnonempty].
  destruct (connectionFor o Name) as [connection|] eqn:Hfor.
  - simpl. by rewrite Hnonempty, Hfor.
  - by rewrite HName, Hnonempty, Hfor.
Qed.

Lemma mapParametersToAction_twice o action :
  Inputs (mapParametersToAction o (mapParametersToAction o action))
    = Inputs (mapParametersToAction o action) ∧
  Environment (mapParametersToAction o (mapParametersToAction o action))
    = Environment (mapParametersToAction o action).
Proof.
  simpl. split.
  - destruct (Inputs action) as [[variables]|]; simpl; [|done].
    unfold mapInputs. simpl. do 2 f_equal.
    destruct variables as [variables|]; simpl; [|done]. f_equal.
    rewrite map_map. apply map_ext. intros variable.
    apply mapVariable_idempotent.
  - destruct (Environment action) as [actionEnvironment|]; simpl; [|done].
    by rewrite mapEnvironment_idempotent.
Qed.

(** What the method makes of an action that a walk has been over, in the
    fields other than [Configuration] and the child actions, is what the walk
    made of it. *)
Lemma walked_twice o path action :
  Inputs (walked o path (walked o path action)) = Inputs (walked o path action) ∧
  Environment (walked o path (walked o path action))
    = Environment (walked o path action).
Proof.
  destruct path as [|top [|child [|name path]]]; simpl; try done;
    apply (mapParametersToAction_twice o action).
Qed.

(** X4: A second walk over a document changes no variable and no environment
    of the result of the first. *)
Theorem second_walk_keeps_variables_and_environments o workflow path :
  (Inputs <$> workflowNodeAt path (walkWorkflow o (walkWorkflow o workflow)))
    = (Inputs <$> workflowNodeAt path (walkWorkflow o workflow)) ∧
  (Environment <$> workflowNodeAt path (walkWorkflow o (walkWorkflow o workflow)))
    = (Environment <$> workflowNodeAt path (walkWorkflow o workflow)).
Proof.
  rewrite !workflowNodeAt_walkWorkflow.
  destruct (workflowNodeAt path workflow) as [action|]; simpl; [|done].
  destruct (walked_twice o path action) as [-> ->]. done.
Qed.

(** ** The rest of the configuration *)

Lemma rewriteOverrides_other o (configuration : gmap string string) key :
  key ≠ PARAMETER_OVERRIDES →
  rewriteOverrides o configuration !! key = configuration !! key.
Proof.
  intros Hkey. unfold rewriteOverrides.
  destruct (configuration !! PARAMETER_OVERRIDES) as [overrides|]; [|done].
  destruct (nonEmpty overrides); [|done].
  destruct (nonEmpty _); [|done].
  by rewrite lookup_insert_ne.
Qed.

Lemma rewriteOverrides_dom o (configuration : gmap string string) :
  dom (rewriteOverrides o configuration) = dom configuration.
Proof.
  unfold rewriteOverrides.
  destruct (configuration !! PARAMETER_OVERRIDES) as [overrides|] eqn:Hlookup;
    [|done].
  destruct (nonEmpty overrides); [|done].
  destruct (nonEmpty _); [|done].
  rewrite dom_insert_L. apply subseteq_union_1_L, singleton_subseteq_l.
  by eapply elem_of_dom_2.
Qed.

(** X5: After a walk, the [Configuration] of a node holds the keys it held, and
    under every key other than [parameter-overrides] the value it held. *)
Theorem walk_keeps_other_configuration o workflow path action key :
  workflowNodeAt path workflow = Some action →
  key ≠ "parameter-overrides" →
  ∃ action',
    workflowNodeAt path (walkWorkflow o workflow) = Some action' ∧
    (dom <$> Configuration action') = (dom <$> Configuration action) ∧
    (Configuration action' ≫= lookup key) = (Configuration action ≫= lookup key).
Proof.
  intros Hnode Hkey. after_walk o path action Hnode.
  destruct (walked_fields o path action) as [->|(_ & _ & _ & ->)]; [done|].
  simpl. destruct (isDeploy action); [|done].
  destruct (Configuration action) as [configuration|]; simpl; [|done].
  by rewrite rewriteOverrides_dom, rewriteOverrides_other.
Qed.

Lemma walk_keeps_other_configuration_witness :
  ∃ action',
    workflowNodeAt ["Deploy"] (walkWorkflow stageProd stackWorkflow) = Some action' ∧
    (dom <$> Configuration action')
      = Some ({[ "parameter-overrides"; "template" ]} : gset string) ∧
    (Configuration action' ≫= lookup "template") = Some "stage=dev".
Proof.
  destruct (walk_keeps_other_configuration stageProd stackWorkflow ["Deploy"]
              stackAction "template" eq_refl) as (action' & Hnode & Hdom & Hkey).
  { discriminate. }
  exists action'. split; [exact Hnode|]. split; [|exact Hkey].
  rewrite Hdom. reflexivity.
Defined.

(** X6: The method leaves alone the [Configuration] of an action, also of a
    deploy action, that has no [parameter-overrides] or has the empty string
    there. *)
Theorem no_overrides_no_rewrite o action :
  Configuration action ≫= lookup PARAMETER_OVERRIDES = None ∨
  Configuration action ≫= lookup PARAMETER_OVERRIDES = Some EmptyString →
  Configuration (mapParametersToAction o action) = Configuration action.
Proof.
  intros Hoverrides. simpl. destruct (isDeploy action); [|done].
  destruct (Configuration action) as [configuration|]; simpl in *; [|done].
  f_equal. unfold rewriteOverrides.
  by destruct Hoverrides as [->| ->].
Qed.

Lemma no_overrides_no_rewrite_witness :
  isDeploy (deployAction EmptyString) = true ∧
  Configuration (mapParametersToAction stageProd (deployAction EmptyString))
  = Configuration (deployAction EmptyString).
Proof.
  split; [reflexivity|].
  apply (no_overrides_no_rewrite stageProd (deployAction EmptyString)).
  right. reflexivity.
Defined.

(** ** All that the walk can change *)

Lemma onlyValuesChange_refl action : onlyValuesChange action action.
Proof.
  split; [done|]. split; [|split].
  - destruct (Inputs action) as [[variables]|]; constructor. simpl.
    destruct variables as [variables|]; constructor.
    by apply Forall_Forall2_diag, Forall_true.
  - by destruct (Environment action); constructor.
  - by destruct (Configuration action); constructor.
Qed.

Lemma mapParametersToAction_onlyValuesChange o action :
  onlyValuesChange (mapParametersToAction o action) action.
Proof.
  split; [done|]. simpl. split; [|split].
  - destruct (Inputs action) as [[variables]|]; constructor. simpl.
    destruct variables as [variables|]; constructor.
    apply Forall2_fmap_l, Forall_Forall2_diag, Forall_forall.
    intros variable _. apply mapVariable_Name.
  - destruct (Environment action) as [actionEnvironment|]; constructor.
    apply mapEnvironment_Name.
  - destruct (isDeploy action);
      [|by destruct (Configuration action); constructor].
    destruct (Configuration action) as [configuration|]; constructor.
    split; [apply rewriteOverrides_dom|].
    intros key Hkey. by apply rewriteOverrides_other.
Qed.

Lemma walked_onlyValuesChange o path action :
  onlyValuesChange (walked o path action) action.
Proof.
  destruct (walked_fields o path action)
    as [->|(HIdentifier & HInputs & HEnvironment & HConfiguration)].
  - apply onlyValuesChange_refl.
  - unfold onlyValuesChange.
    rewrite HIdentifier, HInputs, HEnvironment, HConfiguration.
    apply mapParametersToAction_onlyValuesChange.
Qed.

(** X2: After a walk, a node differs from the node it was in nothing but the
    values of its variables, the connections of its environment, the value
    under [parameter-overrides] and what its children hold: the identifier,
    the presence of [Inputs], [Variables], [Environment] and
    [Configuration], the number, names and order of the variables, the
    environment name, the keys of the configuration with every other value,
    and the names of the children are as they were. *)
Theorem walk_keeps_names o workflow path action :
  workflowNodeAt path workflow = Some action →
  ∃ action',
    workflowNodeAt path (walkWorkflow o workflow) = Some action' ∧
    onlyValuesChange action' action ∧
    namesOf (Actions action') = namesOf (Actions action).
Proof.
  intros Hnode. after_walk o path action Hnode. split.
  - apply walked_onlyValuesChange.
  - apply walked_Actions_names.
Qed.

Lemma walk_keeps_names_witness :
  ∃ action',
    workflowNodeAt ["Deploy"] (walkWorkflow fullOptions fullWorkflow)
      = Some action' ∧
    onlyValuesChange action' fullAction ∧
    namesOf (Actions action') = namesOf (Actions fullAction).
Proof.
  apply (walk_keeps_names fullOptions fullWorkflow ["Deploy"] fullAction).
  reflexivity.
Defined.

(** The three things that do change, on that action. *)
Example full_action_after_walk :
  (λ action', (variablesOf action', connectionsOf action',
               Configuration action' ≫= lookup PARAMETER_OVERRIDES))
    <$> workflowNodeAt ["Deploy"] (walkWorkflow fullOptions fullWorkflow)
  = Some ([InputVariable.mk "stage" (JString "prod")],
          Some [ConnectionDefinition.mk "account-1" "No role selected"],
          Some "stage=prod,region=us-west-2").
Proof. reflexivity. Qed.

(** ** Splitting and joining, the other way round *)

Lemma countChar_append c (s t : string) :
  countChar c (s +:+ t) = countChar c s + countChar c t.
Proof.
  induction s as [|c' s IH]; [done|].
  rewrite append_cons. simpl. rewrite IH. lia.
Qed.

(** No piece of a split holds the separator. *)
Lemma split_pieces_clean sep s :
  Forall (λ piece, countChar sep piece = 0) (split sep s).
Proof.
  induction s as [|c s IH]; simpl; [by repeat constructor|].
  destruct (Ascii.eqb c sep) eqn:Hc; [by constructor|].
  destruct (split sep s) as [|piece pieces]; simpl.
  - repeat constructor. simpl. by rewrite Hc.
  - apply Forall_cons in IH as [Hpiece Hpieces].
    constructor; [|done]. simpl. by rewrite Hc.
Qed.

(** A character that a string does not hold is in none of its pieces. *)
Lemma split_pieces_without c sep s :
  countChar c s = 0 → Forall (λ piece, countChar c piece = 0) (split sep s).
Proof.
  induction s as [|c' s IH]; simpl; [by repeat constructor|].
  intros Hcount.
  assert ((if Ascii.eqb c' c then 1 else 0) = 0 ∧ countChar c s = 0) as [Hc Hs]
    by lia.
  specialize (IH Hs).
  destruct (Ascii.eqb c' sep); [by constructor|].
  destruct (split sep s) as [|piece pieces]; simpl.
  - repeat constructor. simpl. lia.
  - apply Forall_cons in IH as [Hpiece Hpieces].
    constructor; [|done]. simpl. lia.
Qed.

Lemma split_append_separator sep (s t : string) :
  countChar sep s = 0 →
  split sep (s +:+ String sep t) = s :: split sep t.
Proof.
  induction s as [|c s IH].
  - intros _. change (EmptyString +:+ String sep t) with (String sep t).
    simpl. by rewrite Ascii.eqb_refl.
  - rewrite append_cons. simpl.
    destruct (Ascii.eqb c sep); [done|]. intros Hcount. by rewrite IH.
Qed.

(** Splitting the join of pieces that do not hold the separator gives the
    pieces back. *)
Lemma split_concat sep (pieces : list string) :
  pieces ≠ [] →
  Forall (λ piece, countChar sep piece = 0) pieces →
  split sep (String.concat (String sep EmptyString) pieces) = pieces.
Proof.
  induction pieces as [|piece pieces IH]; [done|intros _ Hclean].
  apply Forall_cons in Hclean as [Hpiece Hpieces].
  destruct pieces as [|piece' pieces].
  - simpl. by apply split_no_separator.
  - change (String.concat (String sep EmptyString) (piece :: piece' :: pieces))
      with (piece +:+ String sep
              (String.concat (String sep EmptyString) (piece' :: pieces))).
    rewrite split_append_separator by done. f_equal. by apply IH.
Qed.

(** ** Tuples, read and written again *)

Lemma parseTuple_split token :
  ∃ rest,
    split equals token = KeyValue.key (parseTuple token) :: rest ∧
    KeyValue.value (parseTuple token) = rest !! 0%nat.
Proof.
  unfold parseTuple.
  destruct (split_cons equals token) as (key & rest & ->). by exists rest.
Qed.

(** Neither the key nor the value of a tuple holds [=]; and they hold no
    character that the token does not hold. *)
Lemma parseTuple_clean c token :
  c = equals ∨ countChar c token = 0 →
  countChar c (KeyValue.key (parseTuple token)) = 0 ∧
  ∀ value, KeyValue.value (parseTuple token) = Some value →
           countChar c value = 0.
Proof.
  intros Hc.
  assert (Forall (λ piece, countChar c piece = 0) (split equals token)) as Hclean.
  { destruct Hc as [->|Hc]; [apply split_pieces_clean|by apply split_pieces_without]. }
  destruct (parseTuple_split token) as (rest & Hsplit & Hvalue).
  rewrite Hsplit in Hclean. apply Forall_cons in Hclean as [Hkey Hrest].
  split; [done|]. intros value Hsome. rewrite Hvalue in Hsome.
  by apply (Forall_lookup_1 _ _ _ _ Hrest Hsome).
Qed.

Lemma parseTuple_assignment o parameter :
  countChar equals (KeyValue.key parameter) = 0 →
  parseTuple (assignment o parameter)
  = KeyValue.mk (KeyValue.key parameter)
      (split equals
         (toString (coalesce (override o (KeyValue.key parameter))
                      (from_option JString JUndefined (KeyValue.value parameter))))
       !! 0%nat).
Proof.
  intros Hkey. unfold parseTuple, assignment.
  match goal with
  | |- context [split equals (?k +:+ "=" +:+ ?t)] =>
      change (k +:+ "=" +:+ t) with (k +:+ String equals t);
      rewrite (split_append_separator equals k t Hkey)
  end.
  reflexivity.
Qed.

(** Writing a tuple, reading what was written and writing that gives what
    was written the first time. *)
Lemma assignment_twice o token :
  assignment o (parseTuple (assignment o (parseTuple token)))
  = assignment o (parseTuple token).
Proof.
  destruct (parseTuple_clean equals token) as [Hkey Hvalue]; [by left|].
  rewrite (parseTuple_assignment o (parseTuple token) Hkey).
  revert Hkey Hvalue. generalize (parseTuple token). intros [key value] _ Hvalue.
  unfold assignment. simpl in *. do 2 f_equal.
  unfold coalesce.
  destruct (nullish (override o key)); [|done].
  destruct value as [value|]; simpl.
  - by rewrite (split_no_separator equals value (Hvalue value eq_refl)).
  - reflexivity.
Qed.

Lemma parseTuple_assignment_key o token :
  KeyValue.key (parseTuple (assignment o (parseTuple token)))
  = KeyValue.key (parseTuple token).
Proof.
  destruct (parseTuple_clean equals token) as [Hkey _]; [by left|].
  by rewrite (parseTuple_assignment o (parseTuple token) Hkey).
Qed.

Lemma findLaunchOption_elem o f opt :
  findLaunchOption o f = Some opt → opt ∈ launchOptionsOf o.
Proof.
  rewrite findLaunchOption_launchOptionsOf. intros Hfind.
  apply list_elem_of_In. by apply (List.find_some _ _ Hfind).
Qed.

Lemma override_without_comma o key fallback :
  commaFree o →
  countChar comma (toString fallback) = 0 →
  countChar comma (toString (coalesce (override o key) fallback)) = 0.
Proof.
  intros Hfree Hfallback. unfold override.
  assert (∀ v, countChar comma
                 (toString (coalesce
                    (coalesce v
                       (from_option DynamicKVInput.object JUndefined
                          (List.find (namespaced key) (parameters o))))
                    fallback)) = 0
               ∨ (nullish v = false ∧
                  coalesce (coalesce v
                       (from_option DynamicKVInput.object JUndefined
                          (List.find (namespaced key) (parameters o))))
                    fallback = v)) as Hcases.
  { intros v. unfold coalesce. destruct (nullish v) eqn:Hv.
    - left. by destruct (List.find (namespaced key) (parameters o)).
    - right. by rewrite Hv. }
  destruct (findLaunchOption o (hasKey key)) as [opt|] eqn:Hfind; simpl.
  - destruct (Hcases (LaunchOption.value opt)) as [Hdone|[_ ->]]; [done|].
    apply findLaunchOption_elem in Hfind.
    by apply (proj1 (Forall_forall _ _) Hfree).
  - by destruct (Hcases JUndefined) as [Hdone|[? _]].
Qed.

Lemma assignment_without_comma o token :
  commaFree o →
  countChar comma token = 0 →
  countChar comma (assignment o (parseTuple token)) = 0.
Proof.
  intros Hfree Htoken.
  destruct (parseTuple_clean comma token) as [Hkey Hvalue]; [by right|].
  unfold assignment. rewrite !countChar_append, Hkey.
  rewrite override_without_comma; [done|done|].
  destruct (KeyValue.value (parseTuple token)) as [value|]; simpl; [|done].
  by apply Hvalue.
Qed.

(** With launch options that print without a comma, the string written is
    split into the assignments it was joined from. *)
Lemma split_written o overrides :
  commaFree o →
  split comma (String.concat "," (map (assignment o) (parseOverrides overrides)))
  = map (assignment o) (parseOverrides overrides).
Proof.
  intros Hfree. apply (split_concat comma).
  - destruct (parseOverrides overrides) eqn:Hparsed; [|done].
    by destruct (parseOverrides_cons overrides).
  - unfold parseOverrides. rewrite map_map. apply Forall_map.
    eapply Forall_impl; [apply (split_pieces_clean comma)|].
    intros token Htoken. by apply assignment_without_comma.
Qed.

Lemma parseOverrides_written o overrides :
  commaFree o →
  map (assignment o)
    (parseOverrides
       (String.concat "," (map (assignment o) (parseOverrides overrides))))
  = map (assignment o) (parseOverrides overrides).
Proof.
  intros Hfree. unfold parseOverrides at 1. rewrite split_written by done.
  unfold parseOverrides. rewrite !map_map. apply map_ext.
  intros token. apply assignment_twice.
Qed.

(** ** Rewriting twice *)

Lemma rewriteOverrides_twice o (configuration : gmap string string) :
  commaFree o →
  rewriteOverrides o (rewriteOverrides o configuration)
  = rewriteOverrides o configuration.
Proof.
  intros Hfree.
  destruct (configuration !! PARAMETER_OVERRIDES) as [overrides|] eqn:Hlookup.
  2: { unfold rewriteOverrides at 2. rewrite Hlookup.
       unfold rewriteOverrides. by rewrite Hlookup. }
  destruct (nonEmpty overrides) eqn:Hnonempty.
  2: { unfold rewriteOverrides at 2. rewrite Hlookup, Hnonempty.
       unfold rewriteOverrides. by rewrite Hlookup, Hnonempty. }
  rewrite (rewriteOverrides_nonEmpty o configuration overrides) by done.
  set (written := String.concat "," (map (assignment o) (parseOverrides overrides))).
  destruct (nonEmpty written) eqn:Hwritten.
  - rewrite (rewriteOverrides_nonEmpty o _ written);
      [|by rewrite lookup_insert_eq|done].
    rewrite insert_insert_eq. f_equal.
    unfold written. by rewrite parseOverrides_written.
  - unfold rewriteOverrides. by rewrite lookup_insert_eq, Hwritten.
Qed.

Lemma mapParametersToAction_idempotent o action :
  commaFree o →
  mapParametersToAction o (mapParametersToAction o action)
  = mapParametersToAction o action.
Proof.
  intros Hfree.
  destruct (mapParametersToAction_twice o action) as [HInputs HEnvironment].
  assert (Configuration (mapParametersToAction o (mapParametersToAction o action))
          = Configuration (mapParametersToAction o action)) as HConfiguration.
  { simpl. change (isDeploy (mapParametersToAction o action)) with (isDeploy action).
    destruct (isDeploy action); [|done].
    destruct (Configuration action) as [configuration|]; simpl; [|done].
    by rewrite rewriteOverrides_twice. }
  destruct (mapParametersToAction o (mapParametersToAction o action)) eqn:Htwice.
  destruct (mapParametersToAction o action) eqn:Honce.
  simpl in *. subst.
  apply (f_equal Identifier) in Htwice as HIdentifier.
  apply (f_equal Actions) in Htwice as HActions.
  simpl in *. by subst.
Qed.

Lemma mapChildActions_mapParametersToAction o action :
  mapParametersToAction o (mapChildActions o action)
  = mapChildActions o (mapParametersToAction o action).
Proof. reflexivity. Qed.

Lemma walkAction_idempotent o action :
  commaFree o → walkAction o (walkAction o action) = walkAction o action.
Proof.
  intros Hfree. unfold walkAction.
  rewrite mapChildActions_mapParametersToAction.
  rewrite mapParametersToAction_idempotent by done.
  unfold mapChildActions. simpl. f_equal.
  destruct (Actions action) as [children|]; simpl; [|done]. f_equal.
  rewrite map_map. apply map_ext. intros [name child].
  unfold mapEntry. simpl. by rewrite mapParametersToAction_idempotent.
Qed.

(** X7: With launch options whose values print without a comma, a second walk
    leaves the document as the first walk made it. *)
Theorem walk_idempotent o workflow :
  commaFree o →
  walkWorkflow o (walkWorkflow o workflow) = walkWorkflow o workflow.
Proof.
  intros Hfree. unfold walkWorkflow. simpl. f_equal.
  destruct (wfActions workflow) as [actions|]; simpl; [|done]. f_equal.
  rewrite map_map. apply map_ext. intros [name action].
  unfold mapEntry. simpl. by rewrite walkAction_idempotent.
Qed.

Lemma walk_idempotent_witness :
  walkWorkflow stageProd (walkWorkflow stageProd stackWorkflow)
  = walkWorkflow stageProd stackWorkflow.
Proof.
  apply (walk_idempotent stageProd stackWorkflow).
  repeat constructor.
Defined.

(** The condition is needed: a value with a comma is split at the second
    rewrite, and its second half read as a tuple of its own. *)
Example rewrite_twice_with_comma :
  rewriteOverrides zonesOption {[ PARAMETER_OVERRIDES := "zones=x" ]}
    = {[ PARAMETER_OVERRIDES := "zones=a,b" ]} ∧
  rewriteOverrides zonesOption {[ PARAMETER_OVERRIDES := "zones=a,b" ]}
    = {[ PARAMETER_OVERRIDES := "zones=a,b,b=undefined" ]}.
Proof.
  split.
  - rewrite (rewriteOverrides_nonEmpty _ _ "zones=x") by done.
    by rewrite insert_singleton_eq.
  - rewrite (rewriteOverrides_nonEmpty _ _ "zones=a,b") by done.
    by rewrite insert_singleton_eq.
Qed.

(** X8: With launch options whose values print without a comma, the string
    written for a non-empty override string has the keys of that string, in
    their order. *)
Theorem rewrite_keeps_keys o (configuration : gmap string string) overrides :
  commaFree o →
  configuration !! PARAMETER_OVERRIDES = Some overrides →
  overrides ≠ EmptyString →
  ∃ written,
    rewriteOverrides o configuration !! PARAMETER_OVERRIDES = Some written ∧
    map KeyValue.key (parseOverrides written)
    = map KeyValue.key (parseOverrides overrides).
Proof.
  intros Hfree Hlookup Hnonempty. eexists. split.
  - rewrite (rewriteOverrides_nonEmpty o configuration overrides Hlookup).
    + apply lookup_insert_eq.
    + unfold nonEmpty.
      by rewrite (proj2 (String.eqb_neq overrides EmptyString) Hnonempty).
  - unfold parseOverrides at 1. rewrite split_written by done.
    unfold parseOverrides. rewrite !map_map. apply map_ext.
    intros token. apply parseTuple_assignment_key.
Qed.

Lemma rewrite_keeps_keys_witness :
  ∃ written,
    rewriteOverrides stageProd
      {[ PARAMETER_OVERRIDES := "stage=dev,flag,region=us=west" ]}
      !! PARAMETER_OVERRIDES = Some written ∧
    map KeyValue.key (parseOverrides written) = ["stage"; "flag"; "region"].
Proof.
  apply (rewrite_keeps_keys stageProd
           {[ PARAMETER_OVERRIDES := "stage=dev,flag,region=us=west" ]}
           "stage=dev,flag,region=us=west").
  - repeat constructor.
  - reflexivity.
  - discriminate.
Defined.

(** ** The two sources of environments *)

Lemma isEnvironmentNamed_true Name opt :
  isEnvironmentNamed Name opt = true →
  LaunchOption.displayType opt = Some "environment" ∧
  ∃ e, LaunchOption.value opt = JEnvironment e ∧
       EnvironmentDefinition.name e = Name.
Proof.
  unfold isEnvironmentNamed. intros [Hdisplay Hname]%andb_true_iff.
  apply bool_decide_eq_true in Hdisplay, Hname. split; [done|].
  destruct (LaunchOption.value opt) as [| | | | |e|]; simplify_eq/=.
  by exists e.
Qed.

(** X9: When a launch option of display type [environment] holds a definition
    with the name asked for, that definition is the one used and the legacy
    list is not looked at: if the definition has no named connection, no
    connection is written, whatever the legacy list holds under the name. *)
Theorem launch_environment_shadows_legacy o Name opt :
  findLaunchOption o (isEnvironmentNamed Name) = Some opt →
  ∃ e,
    LaunchOption.value opt = JEnvironment e ∧
    EnvironmentDefinition.name e = Name ∧
    launchEnvironment o Name = JEnvironment e ∧
    (namedConnection e = None → connectionFor o Name = None).
Proof.
  intros Hfind.
  pose proof Hfind as Hfound. rewrite findLaunchOption_launchOptionsOf in Hfound.
  apply List.find_some in Hfound as [_ Hnamed].
  destruct (isEnvironmentNamed_true _ _ Hnamed) as (_ & e & Hvalue & Hname).
  exists e. split; [done|]. split; [done|].
  assert (launchEnvironment o Name = JEnvironment e) as Henv.
  { unfold launchEnvironment. rewrite Hfind. simpl. by rewrite Hvalue. }
  split; [done|]. intros Hunnamed.
  apply connectionFor_absent. right. by exists e.
Qed.

Lemma launch_environment_shadows_legacy_witness :
  betaEnvironment ∈ environments betaShadowed ∧
  namedConnection betaEnvironment = Some "account-1" ∧
  ∃ e,
    JEnvironment (EnvironmentDefinition.mk "beta" None) = JEnvironment e ∧
    EnvironmentDefinition.name e = "beta" ∧
    launchEnvironment betaShadowed "beta" = JEnvironment e ∧
    (namedConnection e = None → connectionFor betaShadowed "beta" = None).
Proof.
  split; [apply list_elem_of_here|]. split; [reflexivity|].
  apply (launch_environment_shadows_legacy betaShadowed "beta"
           (LaunchOption.mk "deployTo" (Some "environment")
              (JEnvironment (EnvironmentDefinition.mk "beta" None)))).
  reflexivity.
Defined.

(** ** Variables and overrides, side by side *)

(** X10: A launch option is found for a name, with a value that is neither
    [null] nor [undefined] (a number being a safe integer).  In a deploy
    action with a non-empty override string, the method writes, for a tuple
    with that key, the key, [=] and the printed value, whatever the tuple
    held; a variable of that name gets the printed value if the value is
    truthy, and is left as it was if not. *)
Theorem launch_option_in_both_paths o key opt action
    (configuration : gmap string string) overrides i token :
  findLaunchOption o (hasKey key) = Some opt →
  nullish (LaunchOption.value opt) = false →
  safeNumber (LaunchOption.value opt) →
  isDeploy action = true →
  Configuration action = Some configuration →
  configuration !! PARAMETER_OVERRIDES = Some overrides →
  overrides ≠ EmptyString →
  split comma overrides !! i = Some token →
  KeyValue.key (parseTuple token) = key →
  Configuration (mapParametersToAction o action)
    = Some (<[PARAMETER_OVERRIDES :=
                String.concat "," (map (assignment o) (parseOverrides overrides))]>
              configuration) ∧
  map (assignment o) (parseOverrides overrides) !! i
    = Some (key +:+ "=" +:+ toString (LaunchOption.value opt)) ∧
  ∀ j variable,
    variablesOf action !! j = Some variable →
    InputVariable.Name variable = key →
    variablesOf (mapParametersToAction o action) !! j
    = Some (if truthy (LaunchOption.value opt)
            then InputVariable.mk key (JString (toString (LaunchOption.value opt)))
            else variable).
Proof.
  intros Hfind Hnullish _ Hdeploy Hconfiguration Hlookup Hnonempty Hi Hkey.
  split; [by apply mapParametersToAction_deploy|]. split.
  - assert (override o key = LaunchOption.value opt) as Hoverride.
    { unfold override, coalesce. rewrite Hfind. simpl. by rewrite Hnullish. }
    unfold parseOverrides. rewrite map_map.
    change (map ?f ?l) with (f <$> l).
    rewrite list_lookup_fmap, Hi. simpl.
    unfold assignment, coalesce. by rewrite Hkey, Hoverride, Hnullish.
  - intros j variable Hj HName.
    assert (specifiedValue o key = LaunchOption.value opt) as Hspecified.
    { unfold specifiedValue, coalesce. rewrite Hfind. simpl. by rewrite Hnullish. }
    rewrite variablesOf_mapParametersToAction.
    change (map ?f ?l) with (f <$> l).
    rewrite list_lookup_fmap, Hj. simpl.
    unfold mapVariable. by rewrite HName, Hspecified.
Qed.

Lemma launch_option_in_both_paths_witness :
  Configuration (mapParametersToAction emptyStage emptyStageAction)
    = Some {[ PARAMETER_OVERRIDES := "stage=,region=us-west-2" ]} ∧
  variablesOf (mapParametersToAction emptyStage emptyStageAction) !! 0%nat
    = Some (InputVariable.mk "stage" (JString "dev")).
Proof.
  destruct (launch_option_in_both_paths emptyStage "stage"
              (LaunchOption.mk "stage" None (JString EmptyString))
              emptyStageAction
              {[ PARAMETER_OVERRIDES := "stage=dev,region=us-west-2" ]}
              "stage=dev,region=us-west-2" 0 "stage=dev")
    as (Hwritten & _ & Hvariable); try reflexivity; try discriminate.
  split.
  - rewrite Hwritten. by rewrite insert_singleton_eq.
  - apply (Hvariable 0 stageVariable); reflexivity.
Defined.

(** ** The environments of the constructor *)




(** ** The substitutions of the template *)

Lemma foldl_setProperty_lookup (opts : list LaunchOption.t) key :
  key ≠ "__proto__" →
  foldl (λ substitutions option,
           setProperty substitutions (LaunchOption.key option)
             (LaunchOption.value option)) ∅ opts !! key
  = LaunchOption.value <$> List.find (hasKey key) (reverse opts).
Proof.
  intros Hkey. induction opts as [|opt opts IH] using rev_ind; [done|].
  rewrite foldl_app, reverse_app. simpl.
  unfold setProperty, hasKey at 1.
  destruct (String.eqb_spec (LaunchOption.key opt) key) as [->|Hother].
  - rewrite (proj2 (String.eqb_neq key "__proto__") Hkey).
    by rewrite lookup_insert_eq.
  - destruct (String.eqb (LaunchOption.key opt) "__proto__"); [done|].
    by rewrite lookup_insert_ne.
Qed.

(** X12: Among launch options with the same key, the template gets the value of
    the last one. *)
Theorem substitutions_last_wins o key :
  key ≠ "__proto__" →
  substitutions o !! key
  = LaunchOption.value <$> List.find (hasKey key) (reverse (launchOptionsOf o)).
Proof. apply foldl_setProperty_lookup. Qed.

Lemma substitutions_last_wins_witness :
  substitutions stageTwice !! "stage" = Some (JString "last") ∧
  specifiedValue stageTwice "stage" = JString "first".
Proof.
  split; [|reflexivity].
  rewrite (substitutions_last_wins stageTwice "stage"); [reflexivity|discriminate].
Defined.

Lemma find_reverse_unique (opts : list LaunchOption.t) key :
  NoDup (map LaunchOption.key opts) →
  List.find (hasKey key) (reverse opts) = List.find (hasKey key) opts.
Proof.
  induction opts as [|opt opts IH]; [done|]. simpl.
  intros [Hfresh Hdup]%NoDup_cons. rewrite reverse_cons.
  assert (∀ l l' : list LaunchOption.t,
            List.find (hasKey key) (l ++ l')
            = match List.find (hasKey key) l with
              | Some x => Some x
              | None => List.find (hasKey key) l'
              end) as Hfind_app.
  { intros l l'. induction l as [|x l IHl]; [done|]. simpl.
    by destruct (hasKey key x). }
  rewrite Hfind_app, (IH Hdup). simpl.
  destruct (hasKey key opt) eqn:Hopt.
  - rewrite find_None_Forall; [done|].
    apply hasKey_true in Hopt. apply Forall_forall. intros opt' Hin.
    apply not_true_is_false. rewrite hasKey_true. intros Hsame.
    apply Hfresh. rewrite Hopt, <- Hsame. by apply list_elem_of_fmap_2.
  - by destruct (List.find (hasKey key) opts).
Qed.

(** X13: With launch options whose keys are pairwise distinct, a launch option
    whose key is not [__proto__] is the one the search of the method finds
    for its key, and its value is the own property that the template gets
    under that key. *)
Theorem substitutions_agree_with_search o opt :
  NoDup (map LaunchOption.key (launchOptionsOf o)) →
  opt ∈ launchOptionsOf o →
  LaunchOption.key opt ≠ "__proto__" →
  substitutions o !! LaunchOption.key opt = Some (LaunchOption.value opt) ∧
  findLaunchOption o (hasKey (LaunchOption.key opt)) = Some opt.
Proof.
  intros Hdup Hin Hkey.
  assert (findLaunchOption o (hasKey (LaunchOption.key opt)) = Some opt) as Hfind
    by by apply findLaunchOption_unique.
  split; [|done]. unfold substitutions.
  rewrite foldl_setProperty_lookup by done.
  rewrite find_reverse_unique by done.
  rewrite findLaunchOption_launchOptionsOf in Hfind. by rewrite Hfind.
Qed.

Lemma substitutions_agree_with_search_witness :
  substitutions familyOptions !! "left" = Some (JString "west") ∧
  findLaunchOption familyOptions (hasKey "left")
  = Some (LaunchOption.mk "left" None (JString "west")).
Proof.
  apply (substitutions_agree_with_search familyOptions
           (LaunchOption.mk "left" None (JString "west"))).
  - apply (bool_decide_unpack _). by vm_compute.
  - apply list_elem_of_further, list_elem_of_here.
  - discriminate.
Defined.

(** ** The names of the workflow files *)

Lemma lineTerminatorAt_first c rest :
  lineTerminatorAt (String c rest) = true → startsLineTerminator c = true.
Proof.
  unfold startsLineTerminator. simpl.
  destruct (Ascii.eqb c LF), (Ascii.eqb c CR); simpl; try done.
  by intros [-> _]%andb_true_iff.
Qed.

Lemma toLowerAscii_startsLineTerminator c :
  startsLineTerminator (toLowerAscii c) = startsLineTerminator c.
Proof. by destruct c as [[] [] [] [] [] [] [] []]. Qed.

Lemma hasLineTerminator_false s :
  Forall (λ c, startsLineTerminator c = false) (String.list_ascii_of_string s) →
  hasLineTerminator s = false.
Proof.
  induction s as [|c s IH]; [done|]. simpl String.list_ascii_of_string.
  intros [Hc Hs]%Forall_cons.
  change (lineTerminatorAt (String c s) || hasLineTerminator s = false).
  rewrite (IH Hs), orb_false_r.
  destruct (lineTerminatorAt (String c s)) eqn:Hat; [|done].
  apply lineTerminatorAt_first in Hat. congruence.
Qed.

Lemma toLower_clean s t :
  toLower s = t →
  Forall (λ c, startsLineTerminator c = false) (String.list_ascii_of_string t) →
  Forall (λ c, startsLineTerminator c = false) (String.list_ascii_of_string s).
Proof.
  intros <-. induction s as [|c s IH]; simpl; [done|].
  intros [Hc Hs]%Forall_cons. constructor; [|by apply IH].
  by rewrite <- toLowerAscii_startsLineTerminator.
Qed.

(** An extension holds no line terminator. *)
Lemma isExtension_clean s :
  isExtension s = true → hasLineTerminator s = false.
Proof.
  unfold isExtension.
  intros [Hs|Hs]%orb_true_iff; apply String.eqb_eq in Hs;
    apply hasLineTerminator_false;
    (eapply toLower_clean; [exact Hs|]); by repeat constructor.
Qed.

(** X14: A name is taken for a workflow file exactly when it ends, whatever the
    case of the letters, in [.yaml] or [.yml], and holds no line
    terminator. *)
Theorem isWorkflowFile_iff name :
  isWorkflowFile name = true ↔
  ∃ base extension,
    name = base +:+ extension ∧
    (toLower extension = ".yaml" ∨ toLower extension = ".yml") ∧
    hasLineTerminator name = false.
Proof.
  assert (∀ s, isExtension s = true ↔ toLower s = ".yaml" ∨ toLower s = ".yml")
    as Hextension.
  { intros s. unfold isExtension. by rewrite orb_true_iff, !String.eqb_eq. }
  split.
  - induction name as [|c name IH].
    + intros Hname. by vm_compute in Hname.
    + change (isExtension (String c name)
              || negb (lineTerminatorAt (String c name)) && isWorkflowFile name
              = true → ∃ base extension,
                  String c name = base +:+ extension ∧
                  (toLower extension = ".yaml" ∨ toLower extension = ".yml") ∧
                  lineTerminatorAt (String c name) || hasLineTerminator name
                  = false).
      intros [Hname|[Hat Hrest]%andb_true_iff]%orb_true_iff.
      * exists EmptyString, (String c name). split; [done|].
        split; [by apply Hextension|]. by apply (isExtension_clean (String c name)).
      * destruct (IH Hrest) as (base & extension & -> & Hext & Hclean).
        exists (String c base), extension. split; [done|]. split; [done|].
        rewrite Hclean. by apply negb_true_iff in Hat as ->.
  - intros (base & extension & -> & Hext & Hclean).
    apply Hextension in Hext.
    induction base as [|c base IH].
    + change (EmptyString +:+ extension) with extension.
      destruct extension as [|c extension]; [by vm_compute in Hext|].
      change (isExtension (String c extension)
              || negb (lineTerminatorAt (String c extension))
                 && isWorkflowFile extension = true).
      by rewrite Hext.
    + rewrite append_cons in Hclean |- *.
      change (lineTerminatorAt (String c (base +:+ extension))
              || hasLineTerminator (base +:+ extension) = false) in Hclean.
      apply orb_false_iff in Hclean as [Hat Hclean].
      change (isExtension (String c (base +:+ extension))
              || negb (lineTerminatorAt (String c (base +:+ extension)))
                 && isWorkflowFile (base +:+ extension) = true).
      by rewrite Hat, (IH Hclean), orb_true_r.
Qed.

Lemma toLowerAscii_idempotent c :
  toLowerAscii (toLowerAscii c) = toLowerAscii c.
Proof. by destruct c as [[] [] [] [] [] [] [] []]. Qed.

Lemma toLower_idempotent s : toLower (toLower s) = toLower s.
Proof.
  induction s as [|c s IH]; [done|]. simpl.
  by rewrite toLowerAscii_idempotent, IH.
Qed.

Lemma toLowerAscii_byte c n :
  n = 10 ∨ n = 13 ∨ n = 226 ∨ n = 128 ∨ n = 168 ∨ n = 169 →
  Nat.eqb (Ascii.nat_of_ascii (toLowerAscii c)) n
  = Nat.eqb (Ascii.nat_of_ascii c) n.
Proof.
  intros Hn. destruct c as [[] [] [] [] [] [] [] []];
    (destruct Hn as [->|[->|[->|[->|[->| ->]]]]]; reflexivity).
Qed.

Lemma toLowerAscii_eqb c d :
  d = LF ∨ d = CR → Ascii.eqb (toLowerAscii c) d = Ascii.eqb c d.
Proof.
  intros Hd. destruct c as [[] [] [] [] [] [] [] []];
    (destruct Hd as [->| ->]; reflexivity).
Qed.

Lemma lineTerminatorAt_toLower s :
  lineTerminatorAt (toLower s) = lineTerminatorAt s.
Proof.
  destruct s as [|c [|c1 [|c2 s]]]; simpl; [done|..];
    rewrite ?toLowerAscii_eqb, ?toLowerAscii_byte by tauto; done.
Qed.

(** X15: The case of the letters of a name does not matter. *)
Theorem isWorkflowFile_toLower name :
  isWorkflowFile (toLower name) = isWorkflowFile name.
Proof.
  induction name as [|c name IH]; [done|].
  change (isExtension (toLower (String c name))
          || negb (lineTerminatorAt (toLower (String c name)))
             && isWorkflowFile (toLower name)
          = isExtension (String c name)
            || negb (lineTerminatorAt (String c name)) && isWorkflowFile name).
  rewrite IH, lineTerminatorAt_toLower. unfold isExtension.
  by rewrite toLower_idempotent.
Qed.

(** ** The command that runs a synthesis *)

(** Unfolds a run of [synth] into the cases of what the surroundings
    answer. *)
Ltac run_cases H :=
  unfold run, synth, readOptions, synthCached, synthDriven, requireFile,
    tryFinally, exec, call, ask, emit, exit255, stop, succeeded,
    mbind, mret, Step_bind, Step_ret in H;
  cbn in H;
  repeat (case_match; simplify_eq/=).

(** X16: The process exits only with the code 255, at once after an error is
    logged, and before any work of the synthesis: no cache is made, no
    driver is written, and no command has run but, at most, the [mkdir] of
    the synthesis directory. *)
Theorem exit_comes_first {W J} (rt : Runtime W J) blueprint outdir useCache
    options w w' events code :
  run (synth rt blueprint outdir useCache options) w
    = ((w', events), inr (Exited code)) →
  code = 255%Z ∧
  (∃ message argument, last events = Some (LogError message argument)) ∧
  (executed events = [] ∨
   executed events
   = [("mkdir -p " +:+ synthDirectoryAt rt outdir (now rt w), outdir)]) ∧
  ∀ e, e ∈ events →
       match e with
       | CreateCache _ _ | WriteSynthDriver _ _ => False
       | _ => True
       end.
Proof.
  intros Hrun. run_cases Hrun.
  all: split; [done|]; split; [by eexists _, _|]; split; [by auto|].
  all: intros e He; repeat (apply elem_of_cons in He as [->|He]; [done|]).
  all: by apply elem_of_nil in He.
Qed.

Lemma exit_comes_first_witness :
  (∃ message argument,
     last [Exec "mkdir -p out/synth/12" "out";
           LogError "options file did not exist: %s" "opts.json"]
     = Some (LogError message argument)) ∧
  executed [Exec "mkdir -p out/synth/12" "out";
            LogError "options file did not exist: %s" "opts.json"]
  = [("mkdir -p out/synth/12", "out")].
Proof.
  destruct (exit_comes_first (sampleRuntime []) "bp" "out" true (Some "opts.json")
              (mkWorld ["bp"; "bp/lib"] 1234) (mkWorld ["bp"; "bp/lib"] 1234)
              [Exec "mkdir -p out/synth/12" "out";
               LogError "options file did not exist: %s" "opts.json"]
              255 eq_refl) as (_ & Hlast & _ & _).
  split; [exact Hlast|reflexivity].
Defined.

(** X17: Without the cache, once the function has gone as far as to write the
    driver file, the last thing it does is to run [rm] on that file in the
    directory of the blueprint, whether the writing and the synthesis
    succeeded or threw. *)
Theorem driver_is_removed {W J} (rt : Runtime W J) blueprint outdir options
    w w' events result driverFile entry :
  run (synth rt blueprint outdir false options) w = ((w', events), result) →
  WriteSynthDriver driverFile entry ∈ events →
  driverFile = join rt [blueprint; "synth-driver.ts"] ∧
  last events = Some (Exec ("rm " +:+ driverFile) blueprint).
Proof.
  intros Hrun Hwritten. run_cases Hrun.
  all: repeat (apply elem_of_cons in Hwritten as [Hwritten|Hwritten];
               [by simplify_eq|]).
  all: by apply elem_of_nil in Hwritten.
Qed.

Lemma driver_is_removed_witness :
  run (synth failingRuntime "bp" "out" false None) sampleWorld
    = ((mkWorld ["bp/synth-driver.ts"; "bp"] 1234, drivenEvents), inr Thrown) ∧
  "bp/synth-driver.ts" = join failingRuntime ["bp"; "synth-driver.ts"] ∧
  last drivenEvents = Some (Exec ("rm " +:+ "bp/synth-driver.ts") "bp").
Proof.
  split; [reflexivity|].
  apply (driver_is_removed failingRuntime "bp" "out" None sampleWorld
           (mkWorld ["bp/synth-driver.ts"; "bp"] 1234) drivenEvents (inr Thrown)
           "bp/synth-driver.ts" "bp/src/index.ts").
  - reflexivity.
  - do 2 apply list_elem_of_further. apply list_elem_of_here.
Defined.

(** X18: When the function returns, the command of the synthesis has been run in
    the directory of the blueprint and has succeeded: a failure of the
    command is never turned into a return. *)
Theorem return_means_synthesis_ran {W J} (rt : Runtime W J) blueprint outdir
    useCache options w w' events :
  run (synth rt blueprint outdir useCache options) w = ((w', events), inl tt) →
  ∃ command w1 w2,
    Exec command blueprint ∈ events ∧
    String.prefix "npx " command = true ∧
    execSync rt command blueprint w1 = (w2, true).
Proof.
  intros Hrun. run_cases Hrun.
  all: match goal with
       | H : execSync _ ("npx node " +:+ ?rest) _ ?w1 = (?w2, true) |- _ =>
           exists ("npx node " +:+ rest), w1, w2
       | H : execSync _ ("npx ts-node " +:+ ?rest) _ ?w1 = (?w2, true) |- _ =>
           exists ("npx ts-node " +:+ rest), w1, w2
       end.
  all: split; [|by split].
  all: repeat first [apply list_elem_of_here | apply list_elem_of_further].
Qed.

Lemma return_means_synthesis_ran_witness :
  ∃ command w1 w2,
    Exec command "bp"
      ∈ [Exec "mkdir -p out/synth/12" "out";
         LogDebug "Creating cache from built: %s" (Some "bp/lib");
         LogDebug "Creating cache from built blueprint: %s" (Some "./index.js");
         CreateCache "bp/lib" "./index.js";
         LogDebug "generated command: %s"
           (Some "npx node cache.js '{}' 'out/synth/12'");
         Exec "npx node cache.js '{}' 'out/synth/12'" "bp"] ∧
    String.prefix "npx " command = true ∧
    execSync (sampleRuntime []) command "bp" w1 = (w2, true).
Proof.
  apply (return_means_synthesis_ran (sampleRuntime []) "bp" "out" true
           (Some "opts.json") (mkWorld ["bp"; "bp/lib"; "opts.json"] 1234)
           (mkWorld ["bp"; "bp/lib"; "opts.json"] 1234)).
  reflexivity.
Defined.

(** X19: With the cache, the error [Blueprint entrypoint not found] is logged
    only when the directory [lib] of the blueprint is missing in the state
    that [mkdir] leaves: when the directory exists, the entry point is not
    looked for. *)
Theorem entrypoint_error_needs_missing_lib {W J} (rt : Runtime W J) blueprint
    outdir options w w' events result argument :
  run (synth rt blueprint outdir true options) w = ((w', events), result) →
  LogError "Blueprint entrypoint not found: %s" argument ∈ events →
  ∃ w1,
    execSync rt ("mkdir -p " +:+ synthDirectoryAt rt outdir (now rt w)) outdir w
      = (w1, true) ∧
    existsSync rt (join rt [blueprint; "lib"]) w1 = false ∧
    result = inr (Exited 255).
Proof.
  intros Hrun Hlogged. run_cases Hrun.
  all: repeat (apply elem_of_cons in Hlogged as [Hlogged|Hlogged];
               [try discriminate|]).
  all: try by apply elem_of_nil in Hlogged.
  all: match goal with
       | H : negb (existsSync _ _ ?w1) && _ = true |- _ =>
           apply andb_true_iff in H as [H _]; apply negb_true_iff in H;
           by exists w1
       end.
Qed.

Lemma entrypoint_error_needs_missing_lib_witness :
  ∃ w1,
    execSync (sampleRuntime [])
      ("mkdir -p " +:+ synthDirectoryAt (sampleRuntime []) "out"
                         (now (sampleRuntime []) sampleWorld)) "out" sampleWorld
      = (w1, true) ∧
    existsSync (sampleRuntime []) (join (sampleRuntime []) ["bp"; "lib"]) w1
      = false ∧
    (inr (Exited 255) : unit + Outcome) = inr (Exited 255).
Proof.
  apply (entrypoint_error_needs_missing_lib (sampleRuntime []) "bp" "out" None
           sampleWorld sampleWorld unbuiltEvents (inr (Exited 255)) "./index.js").
  - reflexivity.
  - do 4 apply list_elem_of_further. apply list_elem_of_here.
Defined.
